(** * xsig: gene signatures, annotation tables, loaders and scores

    A shallow embedding of the Python package [xsig]
    (modules [xsig.annot], [xsig.signature] and [xsig.io]) together with
    the properties its specification states about it.

    Conventions of the embedding:
    - a Python exception is the [Raise] branch of [result];
    - a Python [dict] with string keys whose order is never observed
      (the loaders' output mapping, the reverse index of an annotation,
      the attributes of an XML element, the keyed HDF5 store) is a
      [gmap string _];
    - a pandas [Series] is a list of (label, value) pairs in label order
      (a label may be repeated); a Series built from a [dict] holds, for
      each key, the value written last, and lists the keys in insertion
      order (older versions of pandas sort them: no statement below
      depends on the order);
    - a file is the list of its lines, a parsed XML file the list of the
      attribute dictionaries of its [GENESET] elements, a table read by
      [pandas.read_table] the list of its rows;
    - numbers are the elements of a [Scalar] structure, which holds the
      arithmetic and the two reductions of numpy the scores are made of
      (the sum of a vector and the inner product of two vectors).  The
      program runs on the instance [binary64] (IEEE 754 double precision,
      numpy's [float64]); the instance [exact] (rational numbers) states
      what a formula gives when no rounding takes place. *)

From Stdlib Require Import Ascii String PrimFloat Uint63 QArith Qcanon.
From stdpp Require Import base option list gmap strings pretty.

Open Scope string_scope.
Open Scope list_scope.

(** ** Exceptions *)

Inductive exn : Type :=
  | KeyError (key : string)
  | IndexError
  | ValueError (msg : string)
  | TypeError
  | AttributeError.

Inductive result (A : Type) : Type :=
  | Ok (a : A)
  | Raise (e : exn).
Arguments Ok {A} a.
Arguments Raise {A} e.

Definition result_bind {A B} (f : A → result B) (r : result A) : result B :=
  match r with
  | Ok a => f a
  | Raise e => Raise e
  end.

#[global] Instance result_mret : MRet result := λ A a, Ok a.
#[global] Instance result_mbind : MBind result := λ A B f r, result_bind f r.

Definition raises {A} (r : result A) : Prop :=
  match r with Ok _ => False | Raise _ => True end.

(** [for x in xs: st = body(st, x)], left to right; the first exception
    ends the loop and no state is returned. *)
Fixpoint for_each {S X} (body : S → X → result S) (xs : list X) (st : S)
  : result S :=
  match xs with
  | [] => Ok st
  | x :: xs' =>
      match body st x with
      | Ok st' => for_each body xs' st'
      | Raise e => Raise e
      end
  end.

(** [[f(x) for x in xs]] where [f] may raise. *)
Fixpoint list_comp {X Y} (f : X → result Y) (xs : list X) : result (list Y) :=
  match xs with
  | [] => Ok []
  | x :: xs' =>
      match f x with
      | Ok y =>
          match list_comp f xs' with
          | Ok ys => Ok (y :: ys)
          | Raise e => Raise e
          end
      | Raise e => Raise e
      end
  end.

(** ** Python string operations used by the loaders *)

Module PyStr.

Definition tab : ascii := Ascii.ascii_of_nat 9.
Definition newline : ascii := Ascii.ascii_of_nat 10.
Definition comma : ascii := Ascii.ascii_of_nat 44.

(** A string is the sequence of its characters, each a code point
    below 256.  The characters [str.strip()] removes: space, tab, line
    feed, vertical tab, form feed, carriage return, the four separators
    U+001C to U+001F, next line (U+0085) and no-break space (U+00A0). *)
Definition is_space (c : ascii) : bool :=
  let n := Ascii.nat_of_ascii c in
  (n =? 32)%nat || ((9 <=? n)%nat && (n <=? 13)%nat)
  || ((28 <=? n)%nat && (n <=? 31)%nat) || (n =? 133)%nat || (n =? 160)%nat.

(** [s.split(sep)] for a one-character separator: never empty. *)
Fixpoint split (sep : ascii) (s : string) : list string :=
  match s with
  | EmptyString => [EmptyString]
  | String c s' =>
      if Ascii.eqb c sep then EmptyString :: split sep s'
      else match split sep s' with
           | [] => [String c EmptyString]
           | t :: ts => String c t :: ts
           end
  end.

Fixpoint lstrip (s : string) : string :=
  match s with
  | EmptyString => EmptyString
  | String c s' => if is_space c then lstrip s' else s
  end.

Fixpoint rstrip (s : string) : string :=
  match s with
  | EmptyString => EmptyString
  | String c s' =>
      match rstrip s' with
      | EmptyString => if is_space c then EmptyString else String c EmptyString
      | r => String c r
      end
  end.

(** [s.strip()] *)
Definition strip (s : string) : string := rstrip (lstrip s).

(** [s.startswith(p)] *)
Definition startswith (s p : string) : bool := String.prefix p s.

(** A one-character string. *)
Definition chr (c : ascii) : string := String c EmptyString.

End PyStr.

(** ** Numbers *)

Class Scalar (A : Type) : Type := {
  s_zero : A;
  s_one : A;
  s_add : A → A → A;
  s_mul : A → A → A;
  s_div : A → A → A;
  (** the conversion of a count to a number *)
  s_of_nat : nat → A;
  (** [numpy.nan] and the test for it *)
  s_nan : A;
  s_isnan : A → bool;
  (** the sum of a vector, as [numpy.add.reduce] adds it up *)
  s_sum : list A → A;
  (** the inner product of two vectors of one length, [numpy.dot] *)
  s_dot : list A → list A → A
}.

(** *** numpy's sum of a vector of [float64]

    numpy adds a contiguous vector pairwise.  Fewer than eight values
    are added one after the other.  Up to 128 values are added in eight
    running sums, the sum [j] taking the values at the positions [j],
    [j + 8], [j + 16], ... of the full groups of eight; the eight sums
    are then added two by two, and the values after the last full group
    are added to the result one after the other.  A longer vector is cut
    in two, the first part of a length that is a multiple of eight, and
    the sums of the two parts are added. *)

(** The eight running sums after [k] more groups of eight, with the
    values not yet read. *)
Fixpoint np_unrolled (k : nat) (r a : list float) : list float * list float :=
  match k with
  | 0%nat => (r, a)
  | S k' => np_unrolled k' (zip_with PrimFloat.add r (take 8 a)) (drop 8 a)
  end.

Definition np_block_sum (a : list float) : float :=
  match np_unrolled (length a / 8 - 1) (take 8 a) (drop 8 a) with
  | ([r0; r1; r2; r3; r4; r5; r6; r7], rest) =>
      foldl PrimFloat.add
        (PrimFloat.add
           (PrimFloat.add (PrimFloat.add r0 r1) (PrimFloat.add r2 r3))
           (PrimFloat.add (PrimFloat.add r4 r5) (PrimFloat.add r6 r7)))
        rest
  | _ => foldl PrimFloat.add PrimFloat.zero a
  end.

(** The recursion halves the vector: [fuel] bounds its depth, and the
    length of the vector is enough ([np_pairwise_sum_fuel]). *)
Fixpoint np_pairwise_sum (fuel : nat) (a : list float) : float :=
  let n := length a in
  if (n <? 8)%nat then foldl PrimFloat.add PrimFloat.zero a
  else if (n <=? 128)%nat then np_block_sum a
  else
    match fuel with
    | 0%nat => np_block_sum a
    | S fuel' =>
        let n2 := (n / 2 - (n / 2) mod 8)%nat in
        PrimFloat.add (np_pairwise_sum fuel' (take n2 a))
          (np_pairwise_sum fuel' (drop n2 a))
    end.

(** [a.sum()]: the reduction starts from the identity of the addition
    and adds the pairwise sum of the vector to it. *)
Definition np_sum (a : list float) : float :=
  PrimFloat.add PrimFloat.zero (np_pairwise_sum (length a) a).

(** [numpy.dot] on two vectors: the products are added one after the
    other, starting from the first product.  (This is the order of the
    reference [ddot]; an optimised BLAS is free to add the products of
    two or more positions in another order.  No statement below depends
    on the order.) *)
Definition np_dot (xs ws : list float) : float :=
  match zip_with PrimFloat.mul xs ws with
  | [] => PrimFloat.zero
  | p :: ps => foldl PrimFloat.add p ps
  end.

(** numpy's [float64]: the kernel's IEEE 754 binary64 numbers. *)
#[global] Instance binary64 : Scalar float := {|
  s_zero := PrimFloat.zero;
  s_one := PrimFloat.one;
  s_add := PrimFloat.add;
  s_mul := PrimFloat.mul;
  s_div := PrimFloat.div;
  s_of_nat n := PrimFloat.of_uint63 (Uint63.of_Z (Z.of_nat n));
  s_nan := PrimFloat.nan;
  s_isnan := PrimFloat.is_nan;
  s_sum := np_sum;
  s_dot := np_dot
|}.

(** The sum of a list of rationals. *)
Definition Qcsum (xs : list Qc) : Qc := foldr Qcplus 0%Qc xs.

(** Exact arithmetic on the rationals.  There is no not-a-number among
    them: [s_isnan] is constantly [false], and [s_nan] is a placeholder
    that only the mean of no value at all returns. *)
#[global] Instance exact : Scalar Qc := {|
  s_zero := 0%Qc;
  s_one := 1%Qc;
  s_add := Qcplus;
  s_mul := Qcmult;
  s_div := Qcdiv;
  s_of_nat n := Q2Qc (inject_Z (Z.of_nat n));
  s_nan := 0%Qc;
  s_isnan _ := false;
  s_sum := Qcsum;
  s_dot xs ws := Qcsum (zip_with Qcmult xs ws)
|}.

(** ** Python dictionaries in insertion order, pandas Series and frames *)

(** [d[k] = v]: a key already there keeps its place and takes the new
    value, a new key goes to the end. *)
Fixpoint dict_set {V} (k : string) (v : V) (d : list (string * V))
  : list (string * V) :=
  match d with
  | [] => [(k, v)]
  | (k', v') :: d' =>
      if decide (k' = k) then (k, v) :: d' else (k', v') :: dict_set k v d'
  end.

(** [dict(items)]: the items are written one after the other. *)
Definition dict {V} (items : list (string * V)) : list (string * V) :=
  foldl (λ d kv, dict_set kv.1 kv.2 d) [] items.

Fixpoint dict_get {V} (k : string) (d : list (string * V)) : option V :=
  match d with
  | [] => None
  | (k', v) :: d' => if decide (k' = k) then Some v else dict_get k d'
  end.

(** The positions of a label in a list of labels. *)
Fixpoint positions (k : string) (l : list string) : list nat :=
  match l with
  | [] => []
  | k' :: l' =>
      let js := S <$> positions k l' in
      if decide (k' = k) then 0%nat :: js else js
  end.

(** A labelled vector. *)
Definition series (A : Type) : Type := list (string * A).

(** A table: rows are samples, columns are genes. *)
Record frame (A : Type) : Type := {
  f_columns : list string;
  f_rows : list (string * list A)
}.
Arguments f_columns {A} _.
Arguments f_rows {A} _.

Section Pandas.
Context {A : Type} `{Scalar A}.

(** pandas skips NaN by default: a sum is taken with zero in the place
    of every NaN, a mean divides it by the number of the other values. *)
Definition skipna (xs : list A) : list A :=
  map (λ x, if s_isnan x then s_zero else x) xs.

Definition nansum (xs : list A) : A := s_sum (skipna xs).

Definition count (xs : list A) : nat :=
  length (filter (λ x, s_isnan x = false) xs).

(** The mean of the values that are not NaN; NaN when there is none. *)
Definition nanmean (xs : list A) : A :=
  let n := count xs in
  if decide (n = 0%nat) then s_nan else s_div (nansum xs) (s_of_nat n).

(** The inner product of two vectors of values (NaN is not skipped). *)
Definition dot (xs ws : list A) : A := s_dot xs ws.

(** The entries of a Series that carry a label. *)
Definition series_at (X : series A) (g : string) : series A :=
  filter (λ kv, kv.1 = g) X.

(** [X[labels]] on a Series: for every label in turn, every entry that
    carries it; [KeyError] when a label is on no entry (the argument
    kept here is the first such label; the message of pandas lists them
    all). *)
Definition series_getitem (X : series A) (labels : list string)
  : result (series A) :=
  parts ← list_comp (λ g, match series_at X g with
                           | [] => Raise (KeyError g)
                           | kvs => Ok kvs
                           end) labels;
  Ok (concat parts).

(** [s.sum()] and [s.mean()] *)
Definition series_sum (s : series A) : A := nansum s.*2.
Definition series_mean (s : series A) : A := nanmean s.*2.

(** The alignment test of [dot]: the union of the two indexes must be
    no longer than either of them.  The union keeps a repeated label as
    often as the side that repeats it most, so the test passes when the
    two sides carry the same labels as often; a label repeated on the
    left then fails the reindexing that follows, with [ValueError] as
    well. *)
Definition aligned (la lb : list string) : bool :=
  bool_decide (NoDup la) && bool_decide (la ≡ₚ lb).

(** [a.dot(b)]: the values of [b] are aligned on the labels of [a]. *)
Definition series_dot (a b : series A) : result A :=
  if aligned a.*1 b.*1 then
    ws ← list_comp (λ g, match dict_get g b with
                         | Some w => Ok w
                         | None => Raise (ValueError "matrices are not aligned")
                         end) a.*1;
    Ok (dot a.*2 ws)
  else Raise (ValueError "matrices are not aligned").

(** The columns of a frame that carry a label, by their positions. *)
Definition columns_at (X : frame A) (g : string) : list (string * nat) :=
  map (λ j, (g, j)) (positions g (f_columns X)).

(** [X[labels]] on a frame: for every label in turn, every column that
    carries it. *)
Definition frame_getitem (X : frame A) (labels : list string)
  : result (frame A) :=
  parts ← list_comp (λ g, match columns_at X g with
                           | [] => Raise (KeyError g)
                           | cols => Ok cols
                           end) labels;
  let sel := concat parts in
  Ok {| f_columns := sel.*1;
        f_rows := map (λ r, (r.1, map (λ j, nth j r.2 s_nan) sel.*2))
                    (f_rows X) |}.

(** The mean of one row of a table.  The values of a table lie column
    after column, and the sum along the rows takes the columns one
    after the other: every row is added from zero, left to right. *)
Definition row_nanmean (xs : list A) : A :=
  let n := count xs in
  if decide (n = 0%nat) then s_nan
  else s_div (foldl s_add s_zero (skipna xs)) (s_of_nat n).

(** [X.mean(axis=1)]: the mean of every row. *)
Definition frame_mean_rows (X : frame A) : series A :=
  map (λ r, (r.1, row_nanmean r.2)) (f_rows X).

(** [X.dot(b)]: the inner product of every row with [b], aligned on the
    column labels. *)
Definition frame_dot (X : frame A) (b : series A) : result (series A) :=
  if aligned (f_columns X) b.*1 then
    ws ← list_comp (λ g, match dict_get g b with
                         | Some w => Ok w
                         | None => Raise (ValueError "matrices are not aligned")
                         end) (f_columns X);
    Ok (map (λ r, (r.1, dot r.2 ws)) (f_rows X))
  else Raise (ValueError "matrices are not aligned").

(** [s / c] on a Series. *)
Definition series_div (s : series A) (c : A) : series A :=
  map (λ r, (r.1, s_div r.2 c)) s.

End Pandas.

(** ** xsig.signature *)

(** The [w] argument of the constructor: absent, a list, or anything
    else (taken as a constant). *)
Inductive weights_arg (A : Type) : Type :=
  | WNone
  | WList (w : list A)
  | WScalar (w : A).
Arguments WNone {A}.
Arguments WList {A} w.
Arguments WScalar {A} w.

Record GeneSignature (A : Type) : Type := {
  _gset : series A;
  _bias : A;
  info : string
}.
Arguments _gset {A} _.
Arguments _bias {A} _.
Arguments info {A} _.

(** What [GSS.average] is given as [X] and what it returns. *)
Inductive expression (A : Type) : Type :=
  | XSeries (X : series A)
  | XFrame (X : frame A)
  | XOther.
Arguments XSeries {A} X.
Arguments XFrame {A} X.
Arguments XOther {A}.

Inductive score (A : Type) : Type :=
  | Value (v : A)
  | PerSample (s : series A).
Arguments Value {A} v.
Arguments PerSample {A} s.

Section Signature.
Context {A : Type} `{Scalar A}.

(** [GeneSignature.__init__(self, gid, w=None, b=None, info='')] *)
Definition GeneSignature_init (gid : list string) (w : weights_arg A)
    (b : option A) (info : string) : result (GeneSignature A) :=
  let bias := match b with None => s_zero | Some b => b end in
  match w with
  | WNone =>
      Ok {| _gset := dict (zip gid (replicate (length gid) s_one));
            _bias := bias; info := info |}
  | WList w =>
      match w with
      | [w0] =>
          Ok {| _gset := dict (zip gid (replicate (length gid) w0));
                _bias := bias; info := info |}
      | _ =>
          if decide (length w = length gid) then
            Ok {| _gset := dict (zip gid w); _bias := bias; info := info |}
          else
            Raise (ValueError
              "length of weights does not match the length of the gene list")
      end
  | WScalar w =>
      Ok {| _gset := dict (zip gid (replicate (length gid) w));
            _bias := bias; info := info |}
  end.

(** The properties [gset] and [bias], and [genes()]. *)
Definition gset (gs : GeneSignature A) : series A := _gset gs.
Definition bias (gs : GeneSignature A) : A := _bias gs.
Definition genes (gs : GeneSignature A) : list string := (_gset gs).*1.

(** [GeneSignature.remap(self, old_to_new)]: the body is the docstring
    alone, so the call returns [None] and the object is what it was.
    The result is the returned value (the list of symbols that could
    not be remapped, or [None]) with the object after the call. *)
Definition remap (gs : GeneSignature A) (old_to_new : gmap string string)
  : option (list string) * GeneSignature A :=
  (None, gs).

(** [GSS.average(gs, X, weighted=False)] *)
Definition average (gs : GeneSignature A) (X : expression A) (weighted : bool)
  : result (score A) :=
  match X with
  | XOther => Raise (ValueError "X must be a Series or DataFrame instance")
  | XSeries X =>
      if weighted then
        let s := series_sum (gset gs) in
        Xg ← series_getitem X (genes gs);
        d ← series_dot Xg (gset gs);
        Ok (Value (s_div d s))
      else
        Xg ← series_getitem X (genes gs);
        Ok (Value (series_mean Xg))
  | XFrame X =>
      if weighted then
        let s := series_sum (gset gs) in
        Xg ← frame_getitem X (genes gs);
        d ← frame_dot Xg (gset gs);
        Ok (PerSample (series_div d s))
      else
        Xg ← frame_getitem X (genes gs);
        Ok (PerSample (frame_mean_rows Xg))
  end.

End Signature.

(** ** xsig.annot *)

(** One row of the annotation table.  Every field is kept as text.  The
    identifier and the official symbol are present in every row of a
    valid source; the missing-value token ["-"] of the four other fields
    is read as [None]. *)
Record row : Type := {
  EntrezID : string;
  Symbol : string;
  Symbol_alt : option string;
  Chr_pos : option string;
  Synonyms : option string;
  Title : option string
}.

(** The version given to the constructor is stored as it is (the default
    is the integer 0); the property setter stores [str(v)]. *)
Inductive pyver : Type :=
  | VerInt (n : Z)
  | VerStr (s : string).

Definition str (v : pyver) : string :=
  match v with
  | VerInt n => pretty n
  | VerStr s => s
  end.

(** A value handed to or returned by a lookup: a string, or (when an
    identifier labels several rows) the Series of the matching cells,
    which cannot be hashed. *)
Inductive pyval : Type :=
  | PStr (s : string)
  | PSeries (cells : list string).

Record Annotation : Type := {
  __version : pyver;
  __data : option (list row);
  __gene_to_id : option (gmap string string)
}.

(** The HDF5 file of [save] and [load]: tables under string keys. *)
Abbreviation hdf_store := (gmap string (list row)).

(** [Annotation.__init__(self, v=0)] *)
Definition Annotation_init (v : pyver) : Annotation :=
  {| __version := v; __data := None; __gene_to_id := None |}.

Definition version (a : Annotation) : pyver := __version a.

Definition set_version (a : Annotation) (v : pyver) : Annotation :=
  {| __version := VerStr (str v);
     __data := __data a; __gene_to_id := __gene_to_id a |}.

(** [dict(zip(data.Symbol, data.EntrezID))]: the reverse index; a symbol
    written twice keeps the identifier written last. *)
Definition reversed_indexing (data : list row) : gmap string string :=
  foldl (λ m r, <[Symbol r := EntrezID r]> m) ∅ data.

(** [Annotation.read_from_table(self, fname, ver)], on the rows that
    [pandas.read_table] returns for the file. *)
Definition read_from_table (a : Annotation) (rows : list row) (ver : string)
  : Annotation :=
  (* self.__data = pd.read_table(...), indexed by EntrezID *)
  let a := {| __version := __version a; __data := Some rows;
              __gene_to_id := __gene_to_id a |} in
  (* self.version = ver *)
  let a := set_version a (VerStr ver) in
  (* self.__gene_to_id = dict(zip(self.__data.Symbol, self.__data.EntrezID)) *)
  {| __version := __version a; __data := __data a;
     __gene_to_id := Some (reversed_indexing rows) |}.

Definition save_key (ver : string) : string := "annot_" +:+ ver.
Definition load_key (ver : string) : string := "annot-" +:+ ver.

(** [Annotation.save(self, fname)]: the file after the call (opened in
    append mode: the other keys stay). *)
Definition save (a : Annotation) (file : hdf_store) : result hdf_store :=
  match __data a with
  | None => Raise AttributeError
  | Some data =>
      match __version a with
      | VerInt _ => Raise TypeError
      | VerStr ver => Ok (<[save_key ver := data]> file)
      end
  end.

(** [Annotation.load(self, fname, ver)].  The version is set before the
    file is read; when the key is missing the call raises and the
    object is not looked at again. *)
Definition load (a : Annotation) (file : hdf_store) (ver : string)
  : result Annotation :=
  let a := set_version a (VerStr ver) in
  match file !! load_key ver with
  | None => Raise (KeyError (load_key ver))
  | Some data =>
      Ok {| __version := __version a;
            __data := Some data;
            __gene_to_id := Some (reversed_indexing data) |}
  end.

(** [Annotation.id_from_symbol(self, gene)] *)
Definition id_from_symbol (a : Annotation) (gene : pyval) : result string :=
  match __gene_to_id a with
  | None => Raise TypeError
  | Some gene_to_id =>
      match gene with
      | PSeries _ => Raise TypeError
      | PStr s =>
          match gene_to_id !! s with
          | Some id => Ok id
          | None => Raise (KeyError s)
          end
      end
  end.

(** [Annotation.gene_from_id(self, id)]: the table is indexed by
    [EntrezID]; the [Symbol] cell of the row the identifier labels. *)
Definition gene_from_id (a : Annotation) (id : string) : result pyval :=
  match __data a with
  | None => Raise AttributeError
  | Some data =>
      match filter (λ r, EntrezID r = id) data with
      | [] => Raise (KeyError id)
      | [r] => Ok (PStr (Symbol r))
      | rs => Ok (PSeries (Symbol <$> rs))
      end
  end.

(** [Annotation.info_id(self, id)] and [Annotation.info_gene(self, gene)]
    read the attribute [ix] of [self.__data].  Neither [None] nor a
    DataFrame has it (pandas took [ix] away in version 1.0, and it is a
    pandas without [ix] that raises [KeyError] for a list of labels one
    of which is missing): the attribute lookup raises before the
    identifier is used, and before the symbol is looked up. *)
Definition info_id (a : Annotation) (id : string) : result (list row) :=
  Raise AttributeError.

Definition info_gene (a : Annotation) (gene : pyval) : result (list row) :=
  Raise AttributeError.

(** [Annotation.id_to_gene_map(self)]: [dict] is called with two
    positional arguments, which it refuses. *)
Definition id_to_gene_map (a : Annotation) : result (gmap string string) :=
  match __data a with
  | None => Raise AttributeError
  | Some _ => Raise TypeError
  end.

(** [Annotation.gene_to_id_map(self)]: the reverse index, [None] before
    a table is read or loaded. *)
Definition gene_to_id_map (a : Annotation) : option (gmap string string) :=
  __gene_to_id a.

(** The systematic name an element adds to the discard list. *)
Definition xml_discard_name (sig : gmap string string) : option string :=
  match sig !! "ORGANISM" with
  | Some organism =>
      if decide (organism ≠ "Homo sapiens") then sig !! "SYSTEMATIC_NAME"
      else None
  | None => None
  end.

(** ** xsig.io *)

Section Loaders.
Context {A : Type} `{Scalar A}.

(** The two values every loader returns, and holds while it runs. *)
Definition loaded : Type := gmap string (GeneSignature A) * list string.

(** [sig.attrib[name]] *)
Definition attrib (sig : gmap string string) (name : string) : result string :=
  match sig !! name with
  | Some v => Ok v
  | None => Raise (KeyError name)
  end.

Definition msigdb_url : string :=
  "http://www.broadinstitute.ors/gsea/msigdb/geneset_page.jsp?geneSetName=".

(** The body of the loop of [load_xml_msigdb]. *)
Definition xml_geneset (st : loaded) (sig : gmap string string)
  : result loaded :=
  let '(db, discarded) := st in
  organism ← attrib sig "ORGANISM";
  if decide (organism ≠ "Homo sapiens") then
    name ← attrib sig "SYSTEMATIC_NAME";
    Ok (db, discarded ++ [name])
  else
    members ← attrib sig "MEMBERS_EZID";
    let gid := PyStr.split PyStr.comma members in
    standard ← attrib sig "STANDARD_NAME";
    let url := msigdb_url +:+ standard in
    category ← attrib sig "CATEGORY_CODE";
    name ← attrib sig "SYSTEMATIC_NAME";
    let key := category +:+ "_" +:+ name in
    gs ← GeneSignature_init gid WNone None url;
    Ok (<[key := gs]> db, discarded).

(** [load_xml_msigdb(fname)], on the attributes of the [GENESET]
    elements of the parsed file, in document order. *)
Definition load_xml_msigdb (genesets : list (gmap string string))
  : result loaded :=
  for_each xml_geneset genesets (∅, []).

Definition genesigdb_url : string :=
  "http://compbio.dfci.harvard.edu/genesigdb/publicationSearch.jsp?searchQuery=".

(** The body of the loop of [load_gmt_genesigdb]. *)
Definition gmt_line (annot : Annotation) (st : loaded) (line : string)
  : result loaded :=
  let '(db, discarded) := st in
  let tokens := PyStr.split PyStr.tab line in
  match tokens with
  | t0 :: t1 :: _ =>
      if negb (PyStr.startswith t1 "Human") then
        Ok (db, discarded ++ [t0])
      else
        let key := "GS_" +:+ t0 in
        let url := genesigdb_url +:+ t0 in
        (* tokens[-1] = tokens[1].strip() *)
        let tokens := <[pred (length tokens) := PyStr.strip t1]> tokens in
        match list_comp (λ g, id_from_symbol annot (PStr g)) (drop 2 tokens) with
        | Raise (KeyError _) => Ok (db, discarded ++ [t0])
        | Raise e => Raise e
        | Ok gid =>
            gs ← GeneSignature_init gid WNone None url;
            Ok (<[key := gs]> db, discarded)
        end
  | _ => Raise IndexError
  end.

(** [load_gmt_genesigdb(fname, annot)], on the lines of the file. *)
Definition load_gmt_genesigdb (lines : list string) (annot : Annotation)
  : result loaded :=
  for_each (gmt_line annot) lines (∅, []).

End Loaders.

(** ** What the loaders do with one entry

    The loop bodies above, read as a function from an entry to its
    outcome; the lemmas [xml_geneset_outcome] and [gmt_line_outcome]
    relate the two. *)

Section Outcomes.
Context {A : Type} `{Scalar A}.

(** What one entry of a database comes to: its identifier goes to the
    discard list, or a signature goes into the mapping. *)
Inductive outcome : Type :=
  | Discarded (id : string)
  | Accepted (key : string) (gs : GeneSignature A).

Definition record (st : loaded (A:=A)) (o : outcome) : loaded (A:=A) :=
  match o with
  | Discarded id => (st.1, st.2 ++ [id])
  | Accepted key gs => (<[key := gs]> st.1, st.2)
  end.

Definition discarded_ids (os : list outcome) : list string :=
  omap (λ o, match o with Discarded id => Some id | _ => None end) os.

Definition accepted (db : gmap string (GeneSignature A)) (os : list outcome)
  : gmap string (GeneSignature A) :=
  foldl (λ db o, match o with Accepted key gs => <[key := gs]> db | _ => db end)
    db os.

(** The outcome of one [GENESET] element, read off [xml_geneset]. *)
Definition xml_outcome (sig : gmap string string) : result outcome :=
  organism ← attrib sig "ORGANISM";
  if decide (organism ≠ "Homo sapiens") then
    name ← attrib sig "SYSTEMATIC_NAME";
    Ok (Discarded name)
  else
    members ← attrib sig "MEMBERS_EZID";
    standard ← attrib sig "STANDARD_NAME";
    category ← attrib sig "CATEGORY_CODE";
    name ← attrib sig "SYSTEMATIC_NAME";
    gs ← GeneSignature_init (PyStr.split PyStr.comma members) WNone None
           (msigdb_url +:+ standard);
    Ok (Accepted (category +:+ "_" +:+ name) gs).

(** The symbols [load_gmt_genesigdb] looks up for a line: the tokens
    after the second one, once the last token has been overwritten. *)
Definition gmt_symbols (tokens : list string) (t1 : string) : list string :=
  drop 2 (<[pred (length tokens) := PyStr.strip t1]> tokens).
#[global] Arguments gmt_symbols : simpl never.

(** The outcome of one line, read off [gmt_line]. *)
Definition gmt_outcome (annot : Annotation) (line : string)
  : result outcome :=
  let tokens := PyStr.split PyStr.tab line in
  match tokens with
  | t0 :: t1 :: _ =>
      if negb (PyStr.startswith t1 "Human") then Ok (Discarded t0)
      else
        match list_comp (λ g, id_from_symbol annot (PStr g))
                (gmt_symbols tokens t1) with
        | Raise (KeyError _) => Ok (Discarded t0)
        | Raise e => Raise e
        | Ok gid =>
            gs ← GeneSignature_init gid WNone None (genesigdb_url +:+ t0);
            Ok (Accepted ("GS_" +:+ t0) gs)
        end
  | _ => Raise IndexError
  end.

(** Whether the lookup of a symbol raises [KeyError]. *)
Definition lookup_KeyError (annot : Annotation) (g : string) : bool :=
  match id_from_symbol annot (PStr g) with
  | Raise (KeyError _) => true
  | _ => false
  end.

(** The identifier a line adds to the discard list: the first field of
    a line whose second field does not begin with ['Human'], or for
    which the lookup of a symbol raises [KeyError]. *)
Definition gmt_discard_id (annot : Annotation) (line : string)
  : option string :=
  match PyStr.split PyStr.tab line with
  | t0 :: t1 :: rest =>
      if negb (PyStr.startswith t1 "Human") then Some t0
      else if existsb (lookup_KeyError annot) (gmt_symbols (t0 :: t1 :: rest) t1)
           then Some t0
           else None
  | _ => None
  end.

(** The attributes [load_xml_msigdb] reads from one element. *)
Definition xml_reads (sig : gmap string string) : list string :=
  if decide (sig !! "ORGANISM" = Some "Homo sapiens") then
    ["ORGANISM"; "MEMBERS_EZID"; "STANDARD_NAME"; "CATEGORY_CODE";
     "SYSTEMATIC_NAME"]
  else ["ORGANISM"; "SYSTEMATIC_NAME"].

(** A human element that puts a signature under [key]. *)
Definition xml_accepts (sig : gmap string string) (key : string) : Prop :=
  sig !! "ORGANISM" = Some "Homo sapiens"
  ∧ ∃ category name, sig !! "CATEGORY_CODE" = Some category
      ∧ sig !! "SYSTEMATIC_NAME" = Some name
      ∧ key = category +:+ "_" +:+ name.

(** A line that puts a signature under [key]: it passes the organism
    filter and every symbol looked up for it resolves. *)
Definition gmt_accepts (annot : Annotation) (line key : string) : Prop :=
  ∃ t0 t1 rest, PyStr.split PyStr.tab line = t0 :: t1 :: rest
    ∧ PyStr.startswith t1 "Human" = true
    ∧ key = "GS_" +:+ t0
    ∧ Forall (λ g, ∃ id, id_from_symbol annot (PStr g) = Ok id)
        (gmt_symbols (t0 :: t1 :: rest) t1).

End Outcomes.

(** ** Scores, as formulas *)

Section ScoreFormulas.
Context {A : Type} `{Scalar A}.

(** The weighted score of one sample: the inner product of its values
    with the weights, divided by the sum of the weights. *)
Definition weighted_mean (xs ws : list A) : A := s_div (dot xs ws) (nansum ws).

End ScoreFormulas.

(** [X] has a value, or a column, for every label. *)
Definition covers {A} (X : expression A) (labels : list string) : Prop :=
  match X with
  | XSeries X => ∀ g, g ∈ labels → is_Some (dict_get g X)
  | XFrame X => ∀ g, g ∈ labels → g ∈ f_columns X
  | XOther => False
  end.

(** No label is on two entries of [X] (on two columns, for a table). *)
Definition single {A} (X : expression A) (labels : list string) : Prop :=
  match X with
  | XSeries X => ∀ g, g ∈ labels → (length (series_at X g) ≤ 1)%nat
  | XFrame X => ∀ g, g ∈ labels → (length (columns_at X g) ≤ 1)%nat
  | XOther => True
  end.

(** ** Concrete inputs *)

Definition TAB : string := PyStr.chr PyStr.tab.
Definition LF : string := PyStr.chr PyStr.newline.

Definition gene_row (id symbol : string) : row :=
  {| EntrezID := id; Symbol := symbol; Symbol_alt := None; Chr_pos := None;
     Synonyms := None; Title := None |}.

(** The line and the table of the specification's example. *)
Definition spec_line : string :=
  "SIG1" +:+ TAB +:+ "Human-derived" +:+ TAB +:+ "GENE_A" +:+ TAB +:+ "GENE_B"
  +:+ LF.

Definition spec_annotation : Annotation :=
  read_from_table (Annotation_init (VerInt 0))
    [gene_row "100" "GENE_A"; gene_row "200" "GENE_B"] "v1".

(** A table without [GENE_B], and two lines with the same identifier:
    the first has no gene at all, the second has a symbol that is not
    in the table. *)
Definition annotation_A : Annotation :=
  read_from_table (Annotation_init (VerInt 0)) [gene_row "100" "GENE_A"] "v1".

Definition line_S_empty : string := "S" +:+ TAB +:+ "Human" +:+ LF.
Definition line_S_genes : string :=
  "S" +:+ TAB +:+ "Human" +:+ TAB +:+ "GENE_A" +:+ TAB +:+ "GENE_B" +:+ LF.
Definition line_X_first : string :=
  "S2" +:+ TAB +:+ "Human" +:+ TAB +:+ "GENE_X" +:+ TAB +:+ "GENE_A" +:+ LF.

(** A table in which the organism marker is itself a symbol, and a
    line whose last symbol is unknown. *)
Definition annotation_Human : Annotation :=
  read_from_table (Annotation_init (VerInt 0))
    [gene_row "100" "GENE_A"; gene_row "999" "Human"] "v1".
Definition line_X_last : string :=
  "SIG1" +:+ TAB +:+ "Human" +:+ TAB +:+ "GENE_A" +:+ TAB +:+ "GENE_X" +:+ LF.

(** A line without a tab. *)
Definition line_short : string := "SIG0" +:+ LF.

(** Three rows, two of them with the same symbol. *)
Definition shared_rows : list row :=
  [gene_row "100" "GENE_A"; gene_row "200" "GENE_B"; gene_row "300" "GENE_A"].

(** [GENESET] elements: a human one, a mouse one with the same category
    and systematic name, and a human one without [MEMBERS_EZID]. *)
Definition geneset_human : gmap string string :=
  {[ "ORGANISM" := "Homo sapiens"; "MEMBERS_EZID" := "1,2,3";
     "STANDARD_NAME" := "NUCLEOPLASM"; "SYSTEMATIC_NAME" := "M12345";
     "CATEGORY_CODE" := "C5" ]}.
Definition geneset_mouse : gmap string string :=
  {[ "ORGANISM" := "Mus musculus"; "MEMBERS_EZID" := "4,5";
     "STANDARD_NAME" := "NUCLEOPLASM_MM"; "SYSTEMATIC_NAME" := "M12345";
     "CATEGORY_CODE" := "C5" ]}.
(** A rat element with no other attribute than its organism and its
    systematic name. *)
Definition geneset_rat : gmap string string :=
  {[ "ORGANISM" := "Rattus norvegicus"; "SYSTEMATIC_NAME" := "M777" ]}.
Definition geneset_no_members : gmap string string :=
  {[ "ORGANISM" := "Homo sapiens"; "STANDARD_NAME" := "CYTOSOL";
     "SYSTEMATIC_NAME" := "M2"; "CATEGORY_CODE" := "C5" ]}.

(** The binary64 number nearest to 0.1, and the next one above it
    (Python prints them 0.1 and 0.10000000000000002). *)
Definition tenth : float := 0x1.999999999999ap-4%float.

Definition sample_tenths : series float :=
  [("a", tenth); ("b", tenth); ("c", tenth)].

(** A line for another organism, a table of two samples over three
    genes, and a Series that lacks the gene [b]. *)
Definition line_mouse : string :=
  "S3" +:+ TAB +:+ "Mouse" +:+ TAB +:+ "GENE_A" +:+ LF.

Definition table_two_samples : frame float :=
  {| f_columns := ["b"; "a"; "c"];
     f_rows := [("s1", [1%float; 2%float; 3%float]);
                ("s2", [4%float; 5%float; 6%float])] |}.

Definition sample_without_b : series float := [("a", 1%float); ("c", 3%float)].

(** * Properties *)

(** ** Dictionaries *)

Section DictFacts.
Context {V : Type}.
Implicit Types (d items : list (string * V)) (k : string) (v : V).

Lemma dict_get_dict_set d k k' v :
  dict_get k' (dict_set k v d) = if decide (k = k') then Some v else dict_get k' d.
Proof.
  induction d as [|[k0 v0] d IH]; simpl.
  - repeat case_decide; congruence.
  - repeat (case_decide; simpl); subst; try congruence.
Qed.

Lemma dict_snoc items k v : dict (items ++ [(k, v)]) = dict_set k v (dict items).
Proof. unfold dict. by rewrite foldl_app. Qed.

(** Reading a dictionary built from a list of items gives the value of
    the last item with that key. *)
Lemma dict_get_dict items k :
  dict_get k (dict items) = last (filter (λ kv, kv.1 = k) items).*2.
Proof.
  induction items as [|[k0 v0] items IH] using rev_ind; [done|].
  rewrite dict_snoc, dict_get_dict_set, filter_app, fmap_app, IH.
  rewrite filter_cons, filter_nil. simpl.
  case_decide; simpl; [by rewrite last_snoc | by rewrite app_nil_r].
Qed.

Lemma dict_set_keys d k v :
  (dict_set k v d).*1 = if decide (k ∈ d.*1) then d.*1 else d.*1 ++ [k].
Proof.
  induction d as [|[k0 v0] d IH]; [done|].
  cbn [dict_set]. rewrite fmap_cons. cbn [fst].
  destruct (decide (k0 = k)) as [->|Hne].
  - rewrite decide_True; [done|]. apply elem_of_cons. by left.
  - rewrite fmap_cons, IH. cbn [fst].
    destruct (decide (k ∈ d.*1)) as [Hin|Hin].
    + rewrite decide_True; [done|]. apply elem_of_cons. by right.
    + rewrite decide_False; [done|].
      rewrite elem_of_cons. intros [->|?]; done.
Qed.

(** The keys of a dictionary are pairwise distinct, and they are the
    keys of the items. *)
Lemma dict_keys_NoDup items : NoDup (dict items).*1.
Proof.
  induction items as [|[k v] items IH] using rev_ind; [constructor|].
  rewrite dict_snoc, dict_set_keys. case_decide; [done|].
  apply NoDup_app. split_and!; [done| |apply NoDup_singleton].
  intros x Hx ->%list_elem_of_singleton. done.
Qed.

Lemma dict_keys_elem_of items k : k ∈ (dict items).*1 ↔ k ∈ items.*1.
Proof.
  induction items as [|[k0 v0] items IH] using rev_ind; [done|].
  rewrite dict_snoc, dict_set_keys, fmap_app, elem_of_app. simpl.
  rewrite list_elem_of_singleton.
  case_decide as Hin.
  - rewrite IH. split; [tauto|]. intros [?| ->]; [done|]. by apply IH.
  - rewrite elem_of_app, list_elem_of_singleton, IH. done.
Qed.

Lemma dict_get_Some_elem_of d k v : dict_get k d = Some v → (k, v) ∈ d.
Proof.
  induction d as [|[k0 v0] d IH]; simpl; [done|].
  case_decide; [intros [= ->]; subst; left | right; auto].
Qed.

Lemma dict_get_is_Some d k : is_Some (dict_get k d) ↔ k ∈ d.*1.
Proof.
  induction d as [|[k0 v0] d IH]; simpl.
  - split; [by intros [? ?] | by intros ?%not_elem_of_nil].
  - rewrite elem_of_cons. case_decide; subst.
    + split; eauto.
    + rewrite IH. split; [tauto|]. intros [?|?]; [congruence|done].
Qed.

(** In a dictionary every key reads the value stored next to it. *)
Lemma dict_get_NoDup d k v : NoDup d.*1 → (k, v) ∈ d → dict_get k d = Some v.
Proof.
  induction d as [|[k0 v0] d IH]; simpl; [by intros _ ?%not_elem_of_nil|].
  intros [Hk0 Hd]%NoDup_cons [[= -> ->]|Hin]%elem_of_cons.
  - by rewrite decide_True.
  - rewrite decide_False; [auto|]. intros ->. apply Hk0.
    apply list_elem_of_fmap. by exists (k, v).
Qed.

End DictFacts.

Lemma filter_none {X} (P : X → Prop) `{∀ x, Decision (P x)} (l : list X) :
  Forall (λ x, ¬ P x) l → filter P l = [].
Proof.
  induction 1 as [|x l Hx _ IH]; [done|].
  by rewrite filter_cons_False.
Qed.

Section DictZip.
Context {V : Type}.
Implicit Types (gid : list string) (w : list V).

Lemma dict_set_elem_of (d : list (string * V)) k v kv :
  kv ∈ dict_set k v d → kv = (k, v) ∨ kv ∈ d.
Proof.
  induction d as [|[k0 v0] d IH]; cbn [dict_set].
  - intros ->%list_elem_of_singleton. by left.
  - case_decide; rewrite !elem_of_cons; [tauto|].
    intros [->|[->|?]%IH]; auto.
Qed.

Lemma dict_elem_of (items : list (string * V)) kv : kv ∈ dict items → kv ∈ items.
Proof.
  induction items as [|[k v] items IH] using rev_ind; [done|].
  rewrite dict_snoc, elem_of_app, list_elem_of_singleton.
  intros [->|?]%dict_set_elem_of; auto.
Qed.

(** [dict(zip(gid, w))] read at a gene: the weight at the last
    position of the gene. *)
Lemma dict_zip_positional gid w i g wi :
  gid !! i = Some g → w !! i = Some wi → g ∉ drop (S i) gid →
  dict_get g (dict (zip gid w)) = Some wi.
Proof.
  intros Hg Hw Hlast. rewrite dict_get_dict.
  assert (zip gid w !! i = Some (g, wi)) as Hi by by apply lookup_zip_Some.
  rewrite <- (take_drop_middle _ _ _ Hi), filter_app, filter_cons_True by done.
  rewrite (filter_none _ (drop (S i) (zip gid w))).
  - rewrite fmap_app. cbn [fmap list_fmap snd]. by rewrite last_snoc.
  - apply Forall_forall. intros [k v] Hkv Hk. simpl in Hk. subst k.
    pose proof (zip_with_drop pair (S i) gid w) as Hdrop.
    rewrite Hdrop in Hkv. by apply elem_of_zip_l in Hkv.
Qed.

(** One value for every gene. *)
Lemma dict_zip_replicate gid (c : V) g :
  g ∈ gid → dict_get g (dict (zip gid (replicate (length gid) c))) = Some c.
Proof.
  intros Hg.
  destruct (dict_get g (dict (zip gid (replicate (length gid) c)))) as [v|] eqn:E.
  - apply dict_get_Some_elem_of, dict_elem_of, elem_of_zip_r in E.
    by apply elem_of_replicate in E as [-> _].
  - assert (is_Some (dict_get g (dict (zip gid (replicate (length gid) c)))))
      as [? ?]; [|congruence].
    apply dict_get_is_Some, dict_keys_elem_of.
    by rewrite fst_zip by by rewrite length_replicate.
Qed.

Lemma dict_zip_keys gid w g :
  (length gid ≤ length w)%nat → g ∈ (dict (zip gid w)).*1 ↔ g ∈ gid.
Proof. intros. by rewrite dict_keys_elem_of, fst_zip. Qed.

End DictZip.

(** ** The signature record *)

Section SignatureFacts.
Context {A : Type} `{Scalar A}.
Implicit Types (gid : list string) (gs : GeneSignature A).

(** Whatever the constructor returns has pairwise distinct genes. *)
Lemma GeneSignature_init_NoDup gid w b inf gs :
  GeneSignature_init gid w b inf = Ok gs → NoDup (genes gs).
Proof.
  unfold GeneSignature_init, genes.
  destruct w as [|[|w0 [|w1 w]]|c]; repeat case_decide;
    intros [= <-]; apply dict_keys_NoDup.
Qed.

(** The constructor without weights: every gene of the list, weight one. *)
Lemma GeneSignature_init_default gid b inf :
  ∃ gs, GeneSignature_init gid WNone b inf = Ok gs
      ∧ (∀ g, g ∈ genes gs ↔ g ∈ gid)
      ∧ (∀ g, g ∈ gid → dict_get g (gset gs) = Some s_one)
      ∧ info gs = inf.
Proof.
  eexists. split; [done|]. unfold genes, gset. simpl. split_and!; [|by apply dict_zip_replicate|done].
  intros g. apply dict_zip_keys. by rewrite length_replicate.
Qed.

(** C5.  The weights of a new signature.  For every gene list [gid]:
    a weights list whose length is neither 1 nor [len(gid)] makes the
    constructor raise [ValueError] (the call itself fails, no object is
    returned); a one-element list gives its element to every gene; a
    list as long as [gid] gives the gene at position [i] the weight at
    position [i] (for a gene listed several times, the position that
    counts is its last one); a constant that is not a list is given to
    every gene, whatever the length of [gid]. *)
Theorem GeneSignature_init_weights gid (b : option A) inf :
  (∀ w, length w ≠ 1 → length w ≠ length gid →
     ∃ msg, GeneSignature_init gid (WList w) b inf = Raise (ValueError msg))
  ∧ (∀ w0, ∃ gs, GeneSignature_init gid (WList [w0]) b inf = Ok gs
       ∧ (∀ g, g ∈ genes gs ↔ g ∈ gid)
       ∧ (∀ g, g ∈ gid → dict_get g (gset gs) = Some w0))
  ∧ (∀ w, length w = length gid →
       ∃ gs, GeneSignature_init gid (WList w) b inf = Ok gs
       ∧ (∀ g, g ∈ genes gs ↔ g ∈ gid)
       ∧ (∀ i g wi, gid !! i = Some g → w !! i = Some wi →
            g ∉ drop (S i) gid → dict_get g (gset gs) = Some wi))
  ∧ (∀ c, ∃ gs, GeneSignature_init gid (WScalar c) b inf = Ok gs
       ∧ (∀ g, g ∈ genes gs ↔ g ∈ gid)
       ∧ (∀ g, g ∈ gid → dict_get g (gset gs) = Some c)).
Proof.
  split_and!.
  - intros w H1 Hn. eexists. unfold GeneSignature_init.
    destruct w as [|w0 [|w1 w]]; [| done |]; by rewrite decide_False.
  - intros w0. eexists. split; [done|]. unfold genes, gset. simpl. split.
    + intros g. apply dict_zip_keys. by rewrite length_replicate.
    + intros g. apply dict_zip_replicate.
  - intros w Hlen.
    assert (∀ g, g ∈ (dict (zip gid w)).*1 ↔ g ∈ gid) as Hkeys.
    { intros g. apply dict_zip_keys. by rewrite Hlen. }
    destruct w as [|w0 [|w1 w]].
    + eexists. split; [unfold GeneSignature_init; by rewrite decide_True|].
      split; [done|]. intros i g wi _ Hw. by rewrite lookup_nil in Hw.
    + destruct gid as [|g0 [|g1 gid']]; try done.
      eexists. split; [done|]. split; [done|].
      intros [|i] g wi Hg Hw _; simplify_eq/=. by rewrite decide_True.
    + eexists. split; [unfold GeneSignature_init; by rewrite decide_True|].
      split; [done|]. intros i g wi. apply dict_zip_positional.
  - intros c. eexists. split; [done|]. unfold genes, gset. simpl. split.
    + intros g. apply dict_zip_keys. by rewrite length_replicate.
    + intros g. apply dict_zip_replicate.
Qed.

(** C10.  [remap] returns [None] and the record is the same before and
    after the call: genes, weights, bias and info. *)
Theorem remap_no_effect gs (old_to_new : gmap string string) :
  let (returned, gs') := remap gs old_to_new in
  returned = None ∧ gs' = gs
  ∧ genes gs' = genes gs ∧ gset gs' = gset gs
  ∧ bias gs' = bias gs ∧ info gs' = info gs.
Proof. done. Qed.

End SignatureFacts.

(** ** The annotation table *)

Section AnnotationFacts.
Implicit Types (a : Annotation) (rows : list row) (r : row) (ver : string).

(** The reverse index at a symbol: the identifier of the last row that
    carries the symbol. *)
Lemma reversed_indexing_lookup rows s :
  reversed_indexing rows !! s
  = last (EntrezID <$> filter (λ r, Symbol r = s) rows).
Proof.
  unfold reversed_indexing.
  induction rows as [|r rows IH] using rev_ind; [done|].
  rewrite foldl_app, filter_app, fmap_app. cbn [foldl].
  destruct (decide (Symbol r = s)) as [<-|Hne].
  - rewrite lookup_insert_eq, filter_cons_True, filter_nil by done.
    cbn [fmap list_fmap]. by rewrite last_snoc.
  - rewrite lookup_insert_ne, filter_cons_False, filter_nil by done.
    cbn [fmap list_fmap]. by rewrite app_nil_r.
Qed.

(** An identifier that is unique in the table labels one row. *)
Lemma filter_EntrezID_unique rows r :
  NoDup (EntrezID <$> rows) → r ∈ rows →
  filter (λ r', EntrezID r' = EntrezID r) rows = [r].
Proof.
  induction rows as [|r0 rows IH]; [by intros _ ?%not_elem_of_nil|].
  rewrite fmap_cons. intros [Hr0 Hnd]%NoDup_cons [->|Hin]%elem_of_cons.
  - rewrite filter_cons_True by done. f_equal.
    apply filter_none, Forall_forall. intros r' Hr' Heq. apply Hr0.
    rewrite <- Heq. by apply list_elem_of_fmap_2.
  - rewrite filter_cons_False; [auto|].
    intros Heq. apply Hr0. rewrite Heq. by apply list_elem_of_fmap_2.
Qed.

(** C4.  Round trip through the reverse index.  In a table read from a
    valid source (the identifiers are pairwise distinct), for every
    identifier [x] of the table [id_from_symbol(gene_from_id(x))]
    returns the identifier of the last row that carries the symbol of
    [x]: it is [x] itself unless another identifier shares the symbol,
    and then the identifier written last wins. *)
Theorem id_from_symbol_gene_from_id a rows ver r :
  NoDup (EntrezID <$> rows) → r ∈ rows →
  let annot := read_from_table a rows ver in
  ∃ y, gene_from_id annot (EntrezID r) ≫= id_from_symbol annot = Ok y
     ∧ last (EntrezID <$> filter (λ r', Symbol r' = Symbol r) rows) = Some y
     ∧ ((∀ r', r' ∈ rows → Symbol r' = Symbol r → EntrezID r' = EntrezID r) →
        y = EntrezID r).
Proof.
  intros Hnd Hr annot.
  assert (is_Some (last (EntrezID <$> filter (λ r', Symbol r' = Symbol r) rows)))
    as [y Hy].
  { rewrite last_is_Some. intros Hnil%fmap_nil_inv.
    eapply (filter_nil_not_elem_of _ _ r); done. }
  exists y. split_and!; [|done|].
  - unfold gene_from_id, annot. cbn [read_from_table set_version __data].
    rewrite filter_EntrezID_unique by done.
    cbn. by rewrite reversed_indexing_lookup, Hy.
  - intros Hsame. apply last_Some_elem_of in Hy.
    apply list_elem_of_fmap in Hy as (r' & -> & [Hsym Hr']%list_elem_of_filter).
    by apply Hsame.
Qed.

(** C9.  The key of [save] and the key of [load].  For every version
    string [v]: [save] writes the table under ["annot_" + v]; [load]
    reads the key ["annot-" + v]; the two keys have the same length and
    the same character everywhere but at the separator (position 5);
    hence what [load] finds under version [v] is what it found before
    the table was saved, and in a file that only holds the saved table
    it raises [KeyError]. *)
Theorem save_load_key_mismatch a b rows (v : string) (file : hdf_store) :
  let annot := read_from_table a rows v in
  save annot file = Ok (<["annot_" +:+ v := rows]> file)
  ∧ load b file v
    = match file !! ("annot-" +:+ v) with
      | Some data => Ok (read_from_table b data v)
      | None => Raise (KeyError ("annot-" +:+ v))
      end
  ∧ (String.length (save_key v) = String.length (load_key v)
     ∧ String.get 5 (save_key v) = Some "_"%char
     ∧ String.get 5 (load_key v) = Some "-"%char
     ∧ ∀ i, i ≠ 5%nat → String.get i (save_key v) = String.get i (load_key v))
  ∧ save annot file ≫= (λ file', load b file' v) = load b file v
  ∧ save annot ∅ ≫= (λ file', load b file' v)
    = Raise (KeyError ("annot-" +:+ v)).
Proof.
  intros annot.
  assert (save_key v ≠ load_key v) as Hne by (unfold save_key, load_key; simpl; intros [=]).
  split_and!; try done.
  - intros i Hi. do 6 (destruct i as [|i]; [done|]). done.
  - cbn. unfold load. fold (save_key v). by rewrite lookup_insert_ne.
Qed.

End AnnotationFacts.

(** ** The loaders *)

Lemma list_comp_app {X Y} (f : X → result Y) (l1 l2 : list X) :
  list_comp f (l1 ++ l2)
  = ys1 ← list_comp f l1; ys2 ← list_comp f l2; Ok (ys1 ++ ys2).
Proof.
  induction l1 as [|x l1 IH]; simpl.
  - by destruct (list_comp f l2).
  - destruct (f x); [|done]. rewrite IH.
    destruct (list_comp f l1); [|done]. by destruct (list_comp f l2).
Qed.

Lemma list_comp_Ok {X Y} (f : X → result Y) (l : list X) :
  Forall (λ x, ∃ y, f x = Ok y) l → ∃ ys, list_comp f l = Ok ys.
Proof.
  induction 1 as [|x l [y Hy] _ [ys IH]]; simpl; [by eexists|].
  rewrite Hy, IH. by eexists.
Qed.

Lemma list_comp_Raise {X Y} (f : X → result Y) (l : list X) (P : exn → Prop) :
  Forall (λ x, match f x with Ok _ => True | Raise e => P e end) l →
  Exists (λ x, raises (f x)) l →
  ∃ e, list_comp f l = Raise e ∧ P e.
Proof.
  induction 1 as [|x l Hx Hl IH]; [by intros ?%Exists_nil|].
  intros Hex. simpl. destruct (f x) as [y|e] eqn:Hfx; [|by eexists].
  apply Exists_cons in Hex as [Hex|Hex]; [by rewrite Hfx in Hex|].
  destruct (IH Hex) as (e & -> & He). by eexists.
Qed.

Lemma list_comp_Ok_Forall2 {X Y} (f : X → result Y) (l : list X) (ys : list Y) :
  list_comp f l = Ok ys → Forall2 (λ x y, f x = Ok y) l ys.
Proof.
  revert ys. induction l as [|x l IH]; intros ys; simpl.
  - intros [= <-]. constructor.
  - destruct (f x) as [y|] eqn:Hx; [|done].
    destruct (list_comp f l) as [ys'|]; [|done].
    intros [= <-]. constructor; auto.
Qed.

Lemma list_comp_Raise_inv {X Y} (f : X → result Y) (l : list X) (e : exn) :
  list_comp f l = Raise e → ∃ x, x ∈ l ∧ f x = Raise e.
Proof.
  induction l as [|x l IH]; simpl; [done|].
  destruct (f x) as [y|e'] eqn:Hx.
  - destruct (list_comp f l) as [ys|e'']; [done|].
    intros [= ->]. destruct (IH eq_refl) as (x' & ? & ?).
    exists x'. split; [by right|done].
  - intros [= ->]. exists x. split; [by left|done].
Qed.

Lemma for_each_ext {S X} (body body' : S → X → result S) xs st :
  (∀ st x, body st x = body' st x) →
  for_each body xs st = for_each body' xs st.
Proof.
  intros Hext. revert st. induction xs as [|x xs IH]; intros st; [done|].
  simpl. rewrite Hext. destruct (body' st x); auto.
Qed.

Section LoaderFacts.
Context {A : Type} `{Scalar A}.
Implicit Types (st : loaded (A:=A)) (os : list (outcome (A:=A))).
Implicit Types (db : gmap string (GeneSignature A)).

Lemma foldl_record st os :
  foldl record st os = (accepted st.1 os, st.2 ++ discarded_ids os).
Proof.
  revert st. induction os as [|o os IH]; intros [db d]; simpl.
  - by rewrite app_nil_r.
  - rewrite IH. destruct o; simpl; [by rewrite <- app_assoc | done].
Qed.

Lemma accepted_app db os1 os2 :
  accepted db (os1 ++ os2) = accepted (accepted db os1) os2.
Proof. apply foldl_app. Qed.

Lemma discarded_ids_app os1 os2 :
  discarded_ids (os1 ++ os2) = discarded_ids os1 ++ discarded_ids os2.
Proof. apply omap_app. Qed.

(** A key of the mapping was there before or comes from an accepted
    entry. *)
Lemma accepted_lookup_is_Some db os key :
  is_Some (accepted db os !! key) →
  is_Some (db !! key) ∨ ∃ gs, Accepted key gs ∈ os.
Proof.
  revert db. induction os as [|o os IH]; intros db; simpl; [by left|].
  intros [Hdb|[gs Hgs]]%IH.
  - destruct o as [id|key' gs']; [by left|].
    destruct (decide (key' = key)) as [->|Hne].
    + right. exists gs'. by left.
    + left. by rewrite lookup_insert_ne in Hdb.
  - right. exists gs. by right.
Qed.

(** A loop whose body records the outcome of each entry. *)
Lemma for_each_record {X} (f : X → result outcome) (xs : list X) st :
  for_each (λ st x, o ← f x; Ok (record st o)) xs st
  = os ← list_comp f xs; Ok (foldl record st os).
Proof.
  revert st. induction xs as [|x xs IH]; intros st; [done|].
  cbn. destruct (f x) as [o|e]; cbn; [|done].
  rewrite IH. cbn. by destruct (list_comp f xs).
Qed.

(** An entry that is discarded leaves the mapping as it is and adds its
    identifier at the end of the discard list of the entries before it;
    the entries after it are then processed as without it, and the
    identifiers they discard follow. *)
Lemma discarded_entry {X} (f : X → result outcome) pre x post id db d :
  f x = Ok (Discarded id) →
  (os ← list_comp f (pre ++ post); Ok (foldl record (∅, []) os)) = Ok (db, d) →
  ∃ db1 d1 db2 d2,
    (os ← list_comp f pre; Ok (foldl record (∅, []) os)) = Ok (db1, d1)
    ∧ (os ← list_comp f post; Ok (foldl record (∅, []) os)) = Ok (db2, d2)
    ∧ d = d1 ++ d2
    ∧ (os ← list_comp f (pre ++ [x]); Ok (foldl record (∅, []) os))
      = Ok (db1, d1 ++ [id])
    ∧ (os ← list_comp f (pre ++ x :: post); Ok (foldl record (∅, []) os))
      = Ok (db, d1 ++ id :: d2).
Proof.
  intros Hx. rewrite !list_comp_app. cbn. rewrite Hx.
  destruct (list_comp f pre) as [os1|]; [|done].
  destruct (list_comp f post) as [os2|]; [|done]. cbn.
  rewrite !foldl_record. cbn. intros [= <- <-].
  exists (accepted ∅ os1), (discarded_ids os1),
    (accepted ∅ os2), (discarded_ids os2).
  rewrite !accepted_app, !discarded_ids_app. done.
Qed.

End LoaderFacts.

Section LoaderOutcomes.
Context {A : Type} `{Scalar A}.

Lemma xml_geneset_outcome st sig :
  xml_geneset st sig = o ← xml_outcome sig; Ok (record st o).
Proof.
  destruct st as [db d]. unfold xml_geneset, xml_outcome.
  destruct (attrib sig "ORGANISM") as [organism|]; cbn; [|done].
  case_decide.
  - by destruct (attrib sig "SYSTEMATIC_NAME").
  - destruct (attrib sig "MEMBERS_EZID"); cbn; [|done].
    destruct (attrib sig "STANDARD_NAME"); cbn; [|done].
    destruct (attrib sig "CATEGORY_CODE"); cbn; [|done].
    by destruct (attrib sig "SYSTEMATIC_NAME").
Qed.

Lemma load_xml_msigdb_outcomes genesets :
  load_xml_msigdb genesets
  = os ← list_comp xml_outcome genesets; Ok (foldl record (∅, []) os).
Proof.
  unfold load_xml_msigdb. rewrite <- for_each_record.
  apply for_each_ext, xml_geneset_outcome.
Qed.

Lemma gmt_line_outcome annot st line :
  gmt_line annot st line = o ← gmt_outcome annot line; Ok (record st o).
Proof.
  destruct st as [db d]. unfold gmt_line, gmt_outcome, gmt_symbols.
  destruct (PyStr.split PyStr.tab line) as [|t0 [|t1 tokens]]; [done..|].
  destruct (negb _); [done|].
  destruct (list_comp _ _) as [gid|[]]; done.
Qed.

Lemma load_gmt_genesigdb_outcomes lines annot :
  load_gmt_genesigdb lines annot
  = os ← list_comp (gmt_outcome annot) lines; Ok (foldl record (∅, []) os).
Proof.
  unfold load_gmt_genesigdb. rewrite <- for_each_record.
  apply for_each_ext, gmt_line_outcome.
Qed.

(** A lookup in a table that was read raises nothing but [KeyError]. *)
Lemma id_from_symbol_read a rows ver g :
  match id_from_symbol (read_from_table a rows ver) (PStr g) with
  | Ok _ => True
  | Raise e => e = KeyError g
  end.
Proof. cbn. by destruct (_ !! g). Qed.

Lemma id_from_symbol_KeyError annot s k g :
  id_from_symbol annot (PStr s) = Raise (KeyError k) →
  match id_from_symbol annot (PStr g) with
  | Ok _ => True
  | Raise e => ∃ k', e = KeyError k'
  end.
Proof.
  unfold id_from_symbol. destruct (__gene_to_id annot) as [m|]; [|done].
  intros _. destruct (m !! g); eauto.
Qed.

(** The last token of a line is never looked up: the stripped second
    token stands in its place. *)
Lemma gmt_symbols_last t0 t1 syms last :
  gmt_symbols (t0 :: t1 :: syms ++ [last]) t1 = syms ++ [PyStr.strip t1].
Proof.
  unfold gmt_symbols.
  change (t0 :: t1 :: syms ++ [last]) with ([t0; t1] ++ syms ++ [last]).
  rewrite (app_assoc [t0; t1] syms [last]).
  rewrite insert_app_r_alt by (rewrite !length_app; simpl; lia).
  replace (pred _ - _)%nat with 0%nat by (rewrite !length_app; simpl; lia).
  cbn [insert list_insert]. by rewrite <- app_assoc.
Qed.

End LoaderOutcomes.

Lemma list_comp_cases {X Y} (f : X → result Y) (l : list X) (P : exn → Prop) :
  Forall (λ x, match f x with Ok _ => True | Raise e => P e end) l →
  match list_comp f l with Ok _ => True | Raise e => P e end.
Proof.
  induction 1 as [|x l Hx _ IH]; simpl; [done|].
  destruct (f x); [|done]. by destruct (list_comp f l).
Qed.

Lemma list_comp_Ok_inv {X Y} (f : X → result Y) (l : list X) ys y :
  list_comp f l = Ok ys → y ∈ ys → ∃ x, x ∈ l ∧ f x = Ok y.
Proof.
  revert ys. induction l as [|x l IH]; intros ys; simpl.
  - by intros [= <-] ?%not_elem_of_nil.
  - destruct (f x) as [y0|] eqn:Hx; [|done].
    destruct (list_comp f l) as [ys0|]; [|done].
    intros [= <-] [->|Hy]%elem_of_cons.
    + exists x. split; [by left|done].
    + destruct (IH _ eq_refl Hy) as (x' & ? & ?). exists x'. split; [by right|done].
Qed.

Section LoaderTheorems.
Context {A : Type} `{Scalar A}.

Lemma xml_outcome_cases sig :
  match xml_outcome (A:=A) sig with
  | Ok _ => ∀ n, n ∈ xml_reads sig → is_Some (sig !! n)
  | Raise e => ∃ n, e = KeyError n ∧ n ∈ xml_reads sig ∧ sig !! n = None
  end.
Proof.
  unfold xml_outcome, xml_reads, attrib.
  destruct (sig !! "ORGANISM") as [organism|] eqn:Horg; cbn.
  - destruct (decide (organism ≠ "Homo sapiens")) as [Hne|Heq%dec_stable].
    + rewrite decide_False by congruence.
      destruct (sig !! "SYSTEMATIC_NAME") eqn:?; cbn.
      * intros n [->|[->|[]%not_elem_of_nil]%elem_of_cons]%elem_of_cons; eauto.
      * exists "SYSTEMATIC_NAME". split_and!; [done| |done]. set_solver.
    + subst organism. rewrite decide_True by done.
      destruct (sig !! "MEMBERS_EZID") eqn:?; cbn;
        [|exists "MEMBERS_EZID"; split_and!; [done|set_solver|done]].
      destruct (sig !! "STANDARD_NAME") eqn:?; cbn;
        [|exists "STANDARD_NAME"; split_and!; [done|set_solver|done]].
      destruct (sig !! "CATEGORY_CODE") eqn:?; cbn;
        [|exists "CATEGORY_CODE"; split_and!; [done|set_solver|done]].
      destruct (sig !! "SYSTEMATIC_NAME") eqn:?; cbn;
        [|exists "SYSTEMATIC_NAME"; split_and!; [done|set_solver|done]].
      intros n Hn. repeat (apply elem_of_cons in Hn as [->|Hn]; [eauto|]).
      by apply not_elem_of_nil in Hn.
  - exists "ORGANISM". split_and!; [done| |done].
    case_decide; set_solver.
Qed.

Lemma xml_outcome_Accepted sig key gs :
  xml_outcome (A:=A) sig = Ok (Accepted key gs) → xml_accepts sig key.
Proof.
  unfold xml_outcome, xml_accepts, attrib.
  destruct (sig !! "ORGANISM") as [organism|]; cbn; [|done].
  destruct (decide (organism ≠ "Homo sapiens")) as [Hne|Heq%dec_stable].
  - by destruct (sig !! "SYSTEMATIC_NAME").
  - subst organism.
    destruct (sig !! "MEMBERS_EZID"); cbn; [|done].
    destruct (sig !! "STANDARD_NAME"); cbn; [|done].
    destruct (sig !! "CATEGORY_CODE"); cbn; [|done].
    destruct (sig !! "SYSTEMATIC_NAME"); cbn; [|done].
    intros [= <- _]. eauto 10.
Qed.

Lemma gmt_outcome_Accepted annot line key gs :
  gmt_outcome (A:=A) annot line = Ok (Accepted key gs) →
  gmt_accepts annot line key.
Proof.
  unfold gmt_outcome, gmt_accepts.
  destruct (PyStr.split PyStr.tab line) as [|t0 [|t1 rest]]; [done..|].
  destruct (PyStr.startswith t1 "Human") eqn:Hhuman; cbn; [|done].
  destruct (list_comp _ _) as [gid|[]] eqn:Hgid; try done.
  cbn. intros [= <- _]. exists t0, t1, rest. split_and!; try done.
  revert gid Hgid. generalize (gmt_symbols (t0 :: t1 :: rest) t1).
  intros l. induction l as [|g l IH]; intros gid; [constructor|].
  simpl. destruct (id_from_symbol annot (PStr g)) eqn:Hg; [|done].
  destruct (list_comp _ l); [|done]. intros _. constructor; eauto.
Qed.

(** With a table that was read, a line raises exactly when it has
    fewer than two tab-separated fields. *)
Lemma gmt_outcome_read a rows ver line :
  match gmt_outcome (A:=A) (read_from_table a rows ver) line with
  | Ok _ => (2 ≤ length (PyStr.split PyStr.tab line))%nat
  | Raise e => e = IndexError ∧ (length (PyStr.split PyStr.tab line) < 2)%nat
  end.
Proof.
  unfold gmt_outcome.
  destruct (PyStr.split PyStr.tab line) as [|t0 [|t1 rest]];
    [simpl; split; [done|lia].. |].
  destruct (negb _); [simpl; lia|].
  pose proof (list_comp_cases
    (λ g, id_from_symbol (read_from_table a rows ver) (PStr g))
    (gmt_symbols (t0 :: t1 :: rest) t1) (λ e, ∃ k, e = KeyError k)) as Hc.
  destruct (list_comp _ _) as [gid|e].
  - simpl. lia.
  - destruct Hc as [k ->]; [|simpl; lia].
    apply Forall_forall. intros g _.
    pose proof (id_from_symbol_read a rows ver g) as Hg.
    destruct (id_from_symbol _ _); [done|eauto].
Qed.

End LoaderTheorems.

Section LoaderClaims.
Context {A : Type} `{Scalar A}.

(** Every key of the mapping a loader returns comes from an entry that
    was accepted. *)
Lemma loaded_key_provenance {X} (f : X → result (outcome (A:=A))) xs db d key :
  (os ← list_comp f xs; Ok (foldl record (∅, []) os)) = Ok (db, d) →
  is_Some (db !! key) → ∃ x gs, x ∈ xs ∧ f x = Ok (Accepted key gs).
Proof.
  destruct (list_comp f xs) as [os|] eqn:Hos; [|done]. cbn.
  rewrite foldl_record. intros [= <- _] Hkey.
  apply accepted_lookup_is_Some in Hkey as [Hkey|[gs Hgs]].
  - rewrite lookup_empty in Hkey. by destruct Hkey.
  - destruct (list_comp_Ok_inv _ _ _ _ Hos Hgs) as (x & ? & ?). eauto.
Qed.

(** C8 (as the code has it).  An element whose [ORGANISM] is not
    ['Homo sapiens'] and that carries a [SYSTEMATIC_NAME], between the
    elements [pre] and the elements [post].  When the other elements
    load, to the mapping [db] and the discard list [d]: the elements
    before it load, with a discard list [d1], the elements after it
    load, with a discard list [d2], and [d] is [d1] followed by [d2];
    the element leaves the mapping of the elements before it as it is
    and appends its systematic name to [d1]; and the file loads to the
    mapping [db] of the other elements and to the discard list [d1],
    the name, [d2].  So the key of the element is absent from the
    mapping unless a human element of the file gives the same key. *)
Theorem xml_non_human_discarded pre sig post organism name db d :
  sig !! "ORGANISM" = Some organism → organism ≠ "Homo sapiens" →
  sig !! "SYSTEMATIC_NAME" = Some name →
  load_xml_msigdb (A:=A) (pre ++ post) = Ok (db, d) →
  (∃ db1 d1 db2 d2,
     load_xml_msigdb (A:=A) pre = Ok (db1, d1)
     ∧ load_xml_msigdb (A:=A) post = Ok (db2, d2)
     ∧ d = d1 ++ d2
     ∧ load_xml_msigdb (A:=A) (pre ++ [sig]) = Ok (db1, d1 ++ [name])
     ∧ load_xml_msigdb (A:=A) (pre ++ sig :: post) = Ok (db, d1 ++ name :: d2))
  ∧ (∀ key, is_Some (db !! key) →
       ∃ sig', sig' ∈ pre ++ post ∧ xml_accepts sig' key).
Proof.
  intros Horg Hne Hname. rewrite !load_xml_msigdb_outcomes. intros Hload. split.
  - apply discarded_entry; [|done].
    unfold xml_outcome, attrib. rewrite Horg. cbn.
    rewrite decide_True by done. by rewrite Hname.
  - intros key Hkey.
    destruct (loaded_key_provenance _ _ _ _ _ Hload Hkey) as (sig' & gs & ? & Hacc).
    exists sig'. split; [done|]. by eapply xml_outcome_Accepted.
Qed.

(** C2 (as the code has it).  A line that passes the organism filter
    and has a gene symbol, before its last token, that
    [id_from_symbol] does not resolve, between the lines [pre] and the
    lines [post].  When the other lines load, to the mapping [db] and
    the discard list [d]: the lines before it load, with a discard list
    [d1], the lines after it load, with a discard list [d2], and [d] is
    [d1] followed by [d2]; the line leaves the mapping of the lines
    before it as it is (nothing of the line gets into it) and appends
    its signature identifier to [d1]; and the file loads to the mapping
    [db] of the other lines and to the discard list [d1], the
    identifier, [d2].  So the key ["GS_" + id] is absent from the
    mapping unless another line of the file with the same identifier is
    accepted. *)
Theorem gmt_unresolved_symbol_discards
    annot pre line post t0 t1 syms last s k db d :
  PyStr.split PyStr.tab line = t0 :: t1 :: syms ++ [last] →
  PyStr.startswith t1 "Human" = true →
  s ∈ syms → id_from_symbol annot (PStr s) = Raise (KeyError k) →
  load_gmt_genesigdb (A:=A) (pre ++ post) annot = Ok (db, d) →
  (∃ db1 d1 db2 d2,
     load_gmt_genesigdb (A:=A) pre annot = Ok (db1, d1)
     ∧ load_gmt_genesigdb (A:=A) post annot = Ok (db2, d2)
     ∧ d = d1 ++ d2
     ∧ load_gmt_genesigdb (A:=A) (pre ++ [line]) annot = Ok (db1, d1 ++ [t0])
     ∧ load_gmt_genesigdb (A:=A) (pre ++ line :: post) annot
       = Ok (db, d1 ++ t0 :: d2))
  ∧ (∀ key, is_Some (db !! key) →
       ∃ line', line' ∈ pre ++ post ∧ gmt_accepts annot line' key).
Proof.
  intros Htok Hhuman Hs Hk. rewrite !load_gmt_genesigdb_outcomes.
  intros Hload. split.
  - apply discarded_entry; [|done].
    unfold gmt_outcome. rewrite Htok, Hhuman. cbn [negb].
    rewrite gmt_symbols_last.
    destruct (list_comp_Raise (λ g, id_from_symbol annot (PStr g))
                (syms ++ [PyStr.strip t1]) (λ e, ∃ k', e = KeyError k'))
      as (e & -> & k' & ->); [| |done].
    + apply Forall_forall. intros g _. by eapply id_from_symbol_KeyError.
    + apply Exists_exists. exists s. split; [set_solver|]. by rewrite Hk.
  - intros key Hkey.
    destruct (loaded_key_provenance _ _ _ _ _ Hload Hkey) as (l' & gs & ? & Hacc).
    exists l'. split; [done|]. by eapply gmt_outcome_Accepted.
Qed.

(** The last token of a line does not count: two lines that differ in
    it alone come to the same outcome. *)
Lemma gmt_outcome_last_token annot line line' t0 t1 syms last last' :
  PyStr.split PyStr.tab line = t0 :: t1 :: syms ++ [last] →
  PyStr.split PyStr.tab line' = t0 :: t1 :: syms ++ [last'] →
  gmt_outcome (A:=A) annot line = gmt_outcome annot line'.
Proof.
  intros Hl Hl'. unfold gmt_outcome.
  by rewrite Hl, Hl', !gmt_symbols_last.
Qed.

End LoaderClaims.

(** ** Scores *)

(** *** numpy's pairwise sum *)

(** The length of a vector is fuel enough for its pairwise sum. *)
Lemma np_pairwise_sum_fuel (fuel fuel' : nat) (a : list float) :
  (length a ≤ fuel)%nat → (length a ≤ fuel')%nat →
  np_pairwise_sum fuel a = np_pairwise_sum fuel' a.
Proof.
  revert fuel' a. induction fuel as [|fuel IH]; intros fuel' a Hf Hf'.
  - destruct a; [|simpl in Hf; lia]. by destruct fuel'.
  - destruct fuel' as [|fuel'].
    { destruct a; [done|simpl in Hf'; lia]. }
    cbn [np_pairwise_sum].
    destruct (length a <? 8)%nat eqn:H8; [done|].
    destruct (length a <=? 128)%nat eqn:H128; [done|].
    apply Nat.leb_gt in H128.
    assert (0 < length a / 2 - (length a / 2) mod 8 < length a)%nat as Hhalf.
    { pose proof (Nat.div_mod_eq (length a) 2) as Hdiv.
      pose proof (Nat.mod_upper_bound (length a) 2) as Hmod.
      pose proof (Nat.mod_upper_bound (length a / 2) 8) as Hmod8.
      lia. }
    f_equal; apply IH; rewrite ?length_take, ?length_drop; lia.
Qed.

(** Fewer than eight values are added one after the other. *)
Lemma np_sum_short (a : list float) :
  (length a < 8)%nat →
  np_sum a = PrimFloat.add PrimFloat.zero (foldl PrimFloat.add PrimFloat.zero a).
Proof.
  intros Hlen. unfold np_sum.
  destruct a as [|x a]; [done|]. cbn [length np_pairwise_sum].
  apply Nat.ltb_lt in Hlen. cbn [length] in Hlen. by rewrite Hlen.
Qed.

(** *** Selecting by label *)

Lemma list_comp_Forall2 {K V} (f : K → result V) (l : list K) (vs : list V) :
  Forall2 (λ k v, f k = Ok v) l vs → list_comp f l = Ok vs.
Proof.
  induction 1 as [|k v l vs Hk _ IH]; simpl; [done|]. by rewrite Hk, IH.
Qed.

(** A comprehension that raises at the labels that select nothing. *)
Lemma list_comp_select {K V} (sel : K → list V) (err : K → exn) (labels : list K) :
  match list_comp (λ g, match sel g with
                        | [] => Raise (err g)
                        | vs => Ok vs
                        end) labels with
  | Ok parts => (∀ g, g ∈ labels → sel g ≠ []) ∧ parts = sel <$> labels
  | Raise e => ∃ g, e = err g ∧ g ∈ labels ∧ sel g = []
  end.
Proof.
  induction labels as [|g labels IH]; simpl.
  - split; [by intros g ?%not_elem_of_nil|done].
  - destruct (sel g) as [|v vs] eqn:Hg.
    + exists g. split_and!; [done|by left|done].
    + destruct (list_comp _ labels) as [parts|e].
      * destruct IH as [Hall ->]. split; [|done].
        intros g' [->|Hg']%elem_of_cons; [by rewrite Hg|by apply Hall].
      * destruct IH as (g' & -> & Hg' & Hnil). exists g'.
        split_and!; [done|by right|done].
Qed.


Section Selection.
Context {B : Type}.
Implicit Types (sel : string → list (string * B)) (labels : list string).

(** Labels that select one entry each: the entries selected carry the
    labels, in their order. *)
Lemma concat_selected sel labels vs :
  Forall2 (λ g v, sel g = [(g, v)]) labels vs →
  concat (sel <$> labels) = zip labels vs.
Proof.
  induction 1 as [|g v labels vs Hg _ IH]; [done|]. cbn. by rewrite Hg, IH.
Qed.

(** A label that selects two entries is twice among the labels of the
    entries selected. *)
Lemma concat_selected_dup sel labels g :
  (∀ g e, e ∈ sel g → e.1 = g) →
  g ∈ labels → (2 ≤ length (sel g))%nat →
  ¬ NoDup (concat (sel <$> labels)).*1.
Proof.
  intros Hsel (l1 & l2 & ->)%list_elem_of_split Hlen.
  rewrite fmap_app, fmap_cons, concat_app, concat_cons, !fmap_app.
  destruct (sel g) as [|e1 [|e2 rest]] eqn:Hg; [simpl in Hlen; lia..|].
  assert (e1.1 = g ∧ e2.1 = g) as [He1 He2].
  { split; apply Hsel; rewrite Hg; [by left|right; by left]. }
  intros (_ & _ & Hnd)%NoDup_app. apply NoDup_app in Hnd as (Hnd & _).
  cbn in Hnd. rewrite He1, He2 in Hnd.
  apply NoDup_cons in Hnd as [Hn _]. apply Hn. by left.
Qed.

(** Every label selects one entry, or some label selects two. *)
Lemma selected_once_or_twice sel labels :
  (∀ g, g ∈ labels → sel g ≠ []) →
  (∀ g e, e ∈ sel g → e.1 = g) →
  (∃ vs, Forall2 (λ g v, sel g = [(g, v)]) labels vs)
  ∨ (∃ g, g ∈ labels ∧ (2 ≤ length (sel g))%nat).
Proof.
  intros Hne Hsel. induction labels as [|g labels IH].
  - left. exists []. constructor.
  - destruct IH as [[vs Hvs]|(g' & Hg' & Hlen)].
    + intros g' Hg'. apply Hne. by right.
    + destruct (sel g) as [|[k v] [|e2 rest]] eqn:Hg.
      * exfalso. by apply (Hne g); [left|].
      * left. exists (v :: vs). constructor; [|done].
        rewrite Hg. do 2 f_equal. apply (Hsel g (k, v)). rewrite Hg. by left.
      * right. exists g. split; [by left|]. rewrite Hg. simpl. lia.
    + right. exists g'. split; [by right|done].
Qed.

End Selection.

Section ScoreFacts.
Context {A : Type} `{Scalar A}.
Implicit Types (gs : GeneSignature A) (X : series A) (xs ws : list A).

Lemma series_at_label X g e : e ∈ series_at X g → e.1 = g.
Proof. by intros [? _]%list_elem_of_filter. Qed.

Lemma series_at_nil X g : series_at X g = [] ↔ g ∉ X.*1.
Proof.
  unfold series_at. split.
  - intros Hnil ([k v] & -> & Hin)%list_elem_of_fmap.
    by eapply (filter_nil_not_elem_of _ _ (k, v)).
  - intros Hnin. apply filter_none, Forall_forall. intros [k v] Hin Hk.
    simpl in Hk. subst k. apply Hnin. apply list_elem_of_fmap. by exists (g, v).
Qed.

Lemma positions_nil (g : string) (l : list string) : positions g l = [] ↔ g ∉ l.
Proof.
  induction l as [|k l IH]; simpl.
  - split; [by intros _ ?%not_elem_of_nil|done].
  - rewrite not_elem_of_cons. case_decide as Hk; subst.
    + split; [done|]. by intros [? _].
    + rewrite <- IH. split; [intros ?%fmap_nil_inv; by split|by intros [_ ->]].
Qed.

Lemma columns_at_label (F : frame A) g e : e ∈ columns_at F g → e.1 = g.
Proof. by intros (j & -> & _)%list_elem_of_fmap. Qed.

Lemma columns_at_nil (F : frame A) g : columns_at F g = [] ↔ g ∉ f_columns F.
Proof.
  unfold columns_at. rewrite <- positions_nil.
  split; [apply fmap_nil_inv|by intros ->].
Qed.

(** [X[labels]] on a Series: every entry with one of the labels, or
    [KeyError] for a label that no entry carries. *)
Lemma series_getitem_cases X labels :
  match series_getitem X labels with
  | Ok Xg => (∀ g, g ∈ labels → g ∈ X.*1) ∧ Xg = concat (series_at X <$> labels)
  | Raise e => ∃ g, e = KeyError g ∧ g ∈ labels ∧ g ∉ X.*1
  end.
Proof.
  unfold series_getitem.
  pose proof (list_comp_select (series_at X) KeyError labels) as Hc.
  destruct (list_comp _ labels) as [parts|e]; cbn.
  - destruct Hc as [Hall ->]. split; [|done]. intros g Hg.
    apply dec_stable. intros Hnin%series_at_nil. by apply (Hall g).
  - destruct Hc as (g & -> & Hg & Hnil%series_at_nil). by exists g.
Qed.

Lemma frame_getitem_cases (F : frame A) labels :
  match frame_getitem F labels with
  | Ok Fg =>
      (∀ g, g ∈ labels → g ∈ f_columns F)
      ∧ Fg = {| f_columns := (concat (columns_at F <$> labels)).*1;
                f_rows := map (λ r, (r.1, map (λ j, nth j r.2 s_nan)
                                            (concat (columns_at F <$> labels)).*2))
                            (f_rows F) |}
  | Raise e => ∃ g, e = KeyError g ∧ g ∈ labels ∧ g ∉ f_columns F
  end.
Proof.
  unfold frame_getitem.
  pose proof (list_comp_select (columns_at F) KeyError labels) as Hc.
  destruct (list_comp _ labels) as [parts|e]; cbn.
  - destruct Hc as [Hall ->]. split; [|done]. intros g Hg.
    apply dec_stable. intros Hnin%columns_at_nil. by apply (Hall g).
  - destruct Hc as (g & -> & Hg & Hnil%columns_at_nil). by exists g.
Qed.

Lemma aligned_refl (l : list string) : NoDup l → aligned l l = true.
Proof.
  intros Hnd. unfold aligned.
  by rewrite !bool_decide_eq_true_2.
Qed.

Lemma aligned_repeated (la lb : list string) : ¬ NoDup la → aligned la lb = false.
Proof. intros Hnd. unfold aligned. by rewrite bool_decide_eq_false_2. Qed.

(** Aligning a Series on its own labels gives its values. *)
Lemma align_on_own_labels (d : series A) e :
  NoDup d.*1 →
  list_comp (λ g, match dict_get g d with
                  | Some w => Ok w
                  | None => Raise e
                  end) d.*1 = Ok d.*2.
Proof.
  intros Hnd. apply list_comp_Forall2, Forall2_fmap, Forall_Forall2_diag.
  apply Forall_forall. intros [g w] Hgw. simpl.
  by rewrite (dict_get_NoDup d g w).
Qed.

(** The unweighted score of a single sample: the mean over every entry
    that carries a gene of the signature. *)
Lemma average_series_mean gs X :
  (∀ g, g ∈ genes gs → g ∈ X.*1) →
  average gs (XSeries X) false
  = Ok (Value (nanmean (concat (series_at X <$> genes gs)).*2)).
Proof.
  intros Hcov. unfold average.
  pose proof (series_getitem_cases X (genes gs)) as Hc.
  destruct (series_getitem X (genes gs)) as [Xg|e].
  - by destruct Hc as [_ ->].
  - destruct Hc as (g & _ & Hg & Hnin). destruct Hnin. by apply Hcov.
Qed.

(** The weighted score of a single sample in which every gene of the
    signature is on one entry. *)
Lemma average_series_dot gs X xs :
  NoDup (genes gs) →
  Forall2 (λ g x, series_at X g = [(g, x)]) (genes gs) xs →
  average gs (XSeries X) true = Ok (Value (weighted_mean xs (gset gs).*2)).
Proof.
  intros Hnd Hxs. pose proof (Forall2_length _ _ _ Hxs) as Hlen.
  unfold average.
  pose proof (series_getitem_cases X (genes gs)) as Hc.
  destruct (series_getitem X (genes gs)) as [Xg|e].
  - destruct Hc as [_ ->]. assert (concat (series_at X <$> genes gs) = zip (genes gs) xs) as ->
      by apply (concat_selected (series_at X) _ xs Hxs). cbn.
    unfold series_dot. rewrite fst_zip, snd_zip by lia.
    unfold genes, gset in *.
    by rewrite aligned_refl, align_on_own_labels.
  - destruct Hc as (g & _ & Hg & Hnin).
    apply list_elem_of_lookup in Hg as [i Hi].
    destruct (Forall2_lookup_l _ _ _ _ _ Hxs Hi) as (x & _ & Hx).
    apply series_at_nil in Hnin. congruence.
Qed.


(** A gene on two entries of the sample: the inner product is refused. *)
Lemma average_series_repeated gs X g :
  (∀ g, g ∈ genes gs → g ∈ X.*1) →
  g ∈ genes gs → (2 ≤ length (series_at X g))%nat →
  average gs (XSeries X) true = Raise (ValueError "matrices are not aligned").
Proof.
  intros Hcov Hg Hlen. unfold average.
  pose proof (series_getitem_cases X (genes gs)) as Hc.
  destruct (series_getitem X (genes gs)) as [Xg|e].
  - destruct Hc as [_ ->]. cbn. unfold series_dot.
    rewrite aligned_repeated; [done|].
    eapply concat_selected_dup; [apply series_at_label|done..].
  - destruct Hc as (g' & _ & Hg' & Hnin). destruct Hnin. by apply Hcov.
Qed.

(** A gene that the sample, or the table, does not have. *)
Lemma average_missing gs (X : expression A) (weighted : bool) :
  match X with
  | XSeries X => ∃ g, g ∈ genes gs ∧ g ∉ X.*1
  | XFrame F => ∃ g, g ∈ genes gs ∧ g ∉ f_columns F
  | XOther => False
  end →
  ∃ k, average gs X weighted = Raise (KeyError k).
Proof.
  destruct X as [X|F|]; [| |done]; intros (g & Hg & Hnin); unfold average.
  - pose proof (series_getitem_cases X (genes gs)) as Hc.
    destruct (series_getitem X (genes gs)) as [Xg|e].
    + destruct Hc as [Hall _]. destruct Hnin. by apply Hall.
    + destruct Hc as (k & -> & _). exists k. by destruct weighted.
  - pose proof (frame_getitem_cases F (genes gs)) as Hc.
    destruct (frame_getitem F (genes gs)) as [Fg|e].
    + destruct Hc as [Hall _]. destruct Hnin. by apply Hall.
    + destruct Hc as (k & -> & _). exists k. by destruct weighted.
Qed.

(** The unweighted scores of the samples of a table. *)
Lemma average_frame_mean gs (F : frame A) :
  (∀ g, g ∈ genes gs → g ∈ f_columns F) →
  average gs (XFrame F) false
  = Ok (PerSample
          (map (λ r, (r.1, row_nanmean
                             (map (λ j, nth j r.2 s_nan)
                                (concat (columns_at F <$> genes gs)).*2)))
             (f_rows F))).
Proof.
  intros Hcov. unfold average.
  pose proof (frame_getitem_cases F (genes gs)) as Hc.
  destruct (frame_getitem F (genes gs)) as [Fg|e].
  - destruct Hc as [_ ->]. cbn. unfold frame_mean_rows. cbn [f_rows].
    by rewrite map_map.
  - destruct Hc as (g & _ & Hg & Hnin). destruct Hnin. by apply Hcov.
Qed.

(** The weighted scores of the samples of a table in which every gene
    of the signature is on one column. *)
Lemma average_frame_dot gs (F : frame A) js :
  NoDup (genes gs) →
  Forall2 (λ g j, columns_at F g = [(g, j)]) (genes gs) js →
  average gs (XFrame F) true
  = Ok (PerSample
          (map (λ r, (r.1, weighted_mean (map (λ j, nth j r.2 s_nan) js)
                             (gset gs).*2)) (f_rows F))).
Proof.
  intros Hnd Hjs. pose proof (Forall2_length _ _ _ Hjs) as Hlen.
  unfold average.
  pose proof (frame_getitem_cases F (genes gs)) as Hc.
  destruct (frame_getitem F (genes gs)) as [Fg|e].
  - destruct Hc as [_ ->]. assert (concat (columns_at F <$> genes gs) = zip (genes gs) js) as ->
      by apply (concat_selected (columns_at F) _ js Hjs). cbn.
    unfold frame_dot. cbn [f_columns f_rows].
    rewrite fst_zip, snd_zip by lia.
    unfold genes, gset in *.
    rewrite aligned_refl, align_on_own_labels by done. cbn.
    unfold series_div, series_sum. by rewrite !map_map.
  - destruct Hc as (g & _ & Hg & Hnin).
    apply list_elem_of_lookup in Hg as [i Hi].
    destruct (Forall2_lookup_l _ _ _ _ _ Hjs Hi) as (j & _ & Hj).
    apply columns_at_nil in Hnin. congruence.
Qed.


Lemma average_frame_repeated gs (F : frame A) g :
  (∀ g, g ∈ genes gs → g ∈ f_columns F) →
  g ∈ genes gs → (2 ≤ length (columns_at F g))%nat →
  average gs (XFrame F) true = Raise (ValueError "matrices are not aligned").
Proof.
  intros Hcov Hg Hlen. unfold average.
  pose proof (frame_getitem_cases F (genes gs)) as Hc.
  destruct (frame_getitem F (genes gs)) as [Fg|e].
  - destruct Hc as [_ ->]. cbn. unfold frame_dot. cbn [f_columns].
    rewrite aligned_repeated; [done|].
    eapply concat_selected_dup; [apply columns_at_label|done..].
  - destruct Hc as (g' & _ & Hg' & Hnin). destruct Hnin. by apply Hcov.
Qed.

End ScoreFacts.

(** *** Exact arithmetic *)

Section ExactFacts.
Implicit Types (xs ws : list Qc) (c v : Qc).
Open Scope Qc_scope.















End ExactFacts.

(** *** The claims on [GSS.average] *)






(** * The claims at the concrete inputs *)

(** Membership in a list that is written out: one case per element. *)
Tactic Notation "elem_of_cases" hyp(H) "by" tactic3(tac) :=
  repeat (apply elem_of_cons in H as [->|H]; [tac|]);
  by apply not_elem_of_nil in H.

(** C1 (the code at the specification's example).  On the line
    ["SIG1\tHuman-derived\tGENE_A\tGENE_B\n"], with [GENE_A] and
    [GENE_B] in the table, the loader does not strip the last token: it
    overwrites it with the stripped second token, looks up
    ["Human-derived"] in place of ["GENE_B"], finds no such symbol and
    discards the line.  The mapping is empty. *)
Theorem load_gmt_genesigdb_spec_example (A : Type) (num : Scalar A) :
  id_from_symbol spec_annotation (PStr "GENE_A") = Ok "100"
  ∧ id_from_symbol spec_annotation (PStr "GENE_B") = Ok "200"
  ∧ PyStr.split PyStr.tab spec_line
    = ["SIG1"; "Human-derived"; "GENE_A"; "GENE_B" +:+ LF]
  ∧ gmt_symbols (PyStr.split PyStr.tab spec_line) "Human-derived"
    = ["GENE_A"; "Human-derived"]
  ∧ load_gmt_genesigdb (A:=A) [spec_line] spec_annotation = Ok (∅, ["SIG1"]).
Proof. split_and!; reflexivity. Qed.

(** The same defect the other way round: the last symbol of the line is
    unknown, the organism marker is a symbol of the table, and the line
    is accepted with the identifier of the marker among its genes. *)
Example gmt_last_symbol_not_looked_up :
  id_from_symbol annotation_Human (PStr "GENE_X") = Raise (KeyError "GENE_X")
  ∧ ∃ gs, load_gmt_genesigdb (A:=float) [line_X_last] annotation_Human
          = Ok ({[ "GS_SIG1" := gs ]}, [])
        ∧ genes gs = ["100"; "999"].
Proof.
  split; [reflexivity|]. eexists. split; [vm_compute; reflexivity|reflexivity].
Qed.

(** C2 fails as stated: the second line has a symbol ([GENE_B]) that
    does not resolve and is discarded, yet its key is in the mapping,
    put there by the first line. *)
Lemma gmt_discarded_key_present :
  PyStr.split PyStr.tab line_S_genes = ["S"; "Human"; "GENE_A"; "GENE_B" +:+ LF]
  ∧ id_from_symbol annotation_A (PStr "GENE_B") = Raise (KeyError "GENE_B")
  ∧ ∃ db, load_gmt_genesigdb (A:=float) [line_S_empty; line_S_genes] annotation_A
          = Ok (db, ["S"])
        ∧ is_Some (db !! "GS_S").
Proof.
  split_and!; [reflexivity..|].
  eexists. split; [vm_compute; reflexivity|]. vm_compute. by eexists.
Qed.

(** C3 fails as stated: a line without a tab and an element without
    [MEMBERS_EZID] each end the load with an exception, although both
    carry an identifier and the other entries are well formed. *)
Lemma loaders_malformed_entry_raises :
  load_gmt_genesigdb (A:=float) [line_short; line_S_empty] annotation_A
  = Raise IndexError
  ∧ load_xml_msigdb (A:=float) [geneset_no_members; geneset_human]
    = Raise (KeyError "MEMBERS_EZID").
Proof. split; vm_compute; reflexivity. Qed.

(** C8 fails as stated: the mouse element is discarded, yet its key
    ["C5_M12345"] is in the mapping, put there by the human element. *)
Lemma xml_discarded_key_present :
  geneset_mouse !! "ORGANISM" = Some "Mus musculus"
  ∧ geneset_mouse !! "CATEGORY_CODE" = Some "C5"
  ∧ geneset_mouse !! "SYSTEMATIC_NAME" = Some "M12345"
  ∧ ∃ db, load_xml_msigdb (A:=float) [geneset_human; geneset_mouse]
          = Ok (db, ["M12345"])
        ∧ is_Some (db !! "C5_M12345").
Proof.
  split_and!; [reflexivity..|].
  eexists. split; [vm_compute; reflexivity|]. vm_compute. by eexists.
Qed.



(** A missing value is skipped by the unweighted mean and not by the
    inner product: with the default weights, the weighted score of a
    sample with a NaN is NaN, the unweighted one is the mean of the
    other values. *)
Lemma average_weighted_nan :
  ∃ gs, GeneSignature_init ["a"; "b"] WNone None "" = Ok gs
      ∧ (∃ v, average gs (XSeries [("a", 1%float); ("b", PrimFloat.nan)]) true
              = Ok (Value v) ∧ PrimFloat.is_nan v = true)
      ∧ average gs (XSeries [("a", 1%float); ("b", PrimFloat.nan)]) false
        = Ok (Value 1%float).
Proof.
  eexists. split; [reflexivity|]. split; [|reflexivity].
  eexists. split; reflexivity.
Qed.

(** * The theorems at concrete inputs *)

(** C4 at a table of three rows: the identifier 200 comes back. *)
Lemma id_from_symbol_gene_from_id_witness :
  NoDup (EntrezID <$> shared_rows)
  ∧ gene_row "200" "GENE_B" ∈ shared_rows
  ∧ ∃ y, gene_from_id (read_from_table (Annotation_init (VerInt 0))
                          shared_rows "v1") "200"
         ≫= id_from_symbol (read_from_table (Annotation_init (VerInt 0))
                               shared_rows "v1") = Ok y
       ∧ last (EntrezID <$> filter (λ r', Symbol r' = "GENE_B") shared_rows)
         = Some y
       ∧ ((∀ r', r' ∈ shared_rows → Symbol r' = "GENE_B" → EntrezID r' = "200")
          → y = "200").
Proof.
  assert (NoDup (EntrezID <$> shared_rows)) as Hnd.
  { apply (bool_decide_unpack _). vm_compute. exact I. }
  assert (gene_row "200" "GENE_B" ∈ shared_rows) as Hin.
  { apply elem_of_cons. right. apply elem_of_cons. by left. }
  split_and!; [done..|].
  exact (id_from_symbol_gene_from_id (Annotation_init (VerInt 0)) shared_rows
           "v1" (gene_row "200" "GENE_B") Hnd Hin).
Defined.

(** The identifiers 100 and 300 share a symbol: the one written last
    comes back for both. *)
Example id_from_symbol_last_write_wins :
  let annot := read_from_table (Annotation_init (VerInt 0)) shared_rows "v1" in
  gene_from_id annot "100" ≫= id_from_symbol annot = Ok "300"
  ∧ gene_from_id annot "300" ≫= id_from_symbol annot = Ok "300".
Proof. split; reflexivity. Qed.

(** C5 at the genes a, b, a and binary64 weights. *)
Lemma GeneSignature_init_weights_witness :
  (∃ msg, GeneSignature_init ["a"; "b"; "a"] (WList [1%float; 2%float]) None ""
          = Raise (ValueError msg))
  ∧ (∃ gs, GeneSignature_init ["a"; "b"; "a"]
             (WList [1%float; 2%float; 3%float]) None "" = Ok gs
         ∧ dict_get "b" (gset gs) = Some 2%float
         ∧ dict_get "a" (gset gs) = Some 3%float).
Proof.
  destruct (GeneSignature_init_weights (A:=float) ["a"; "b"; "a"] None "")
    as (Herr & _ & Hpos & _).
  split.
  - apply Herr; simpl; lia.
  - destruct (Hpos [1%float; 2%float; 3%float] eq_refl) as (gs & Hgs & _ & Hw).
    exists gs. split_and!; [done| |].
    + apply (Hw 1%nat); [done..|]. cbn.
      by intros [[=]|?%not_elem_of_nil]%elem_of_cons.
    + apply (Hw 2%nat); [done..|]. cbn. apply not_elem_of_nil.
Defined.

(** C9 at the version 2014. *)
Lemma save_load_key_mismatch_witness :
  save (read_from_table (Annotation_init (VerInt 0)) shared_rows "2014") ∅
  = Ok {[ "annot_2014" := shared_rows ]}
  ∧ load (Annotation_init (VerInt 0)) {[ "annot_2014" := shared_rows ]} "2014"
    = Raise (KeyError "annot-2014").
Proof.
  destruct (save_load_key_mismatch (Annotation_init (VerInt 0))
              (Annotation_init (VerInt 0)) shared_rows "2014" ∅)
    as (Hsave & _ & _ & _ & Hload).
  split; [exact Hsave|]. rewrite Hsave in Hload. exact Hload.
Defined.

(** C8 at the mouse element between a rat and a human element before
    it and a rat element after it. *)
Lemma xml_non_human_discarded_witness :
  ∃ db, load_xml_msigdb (A:=float) ([geneset_rat; geneset_human] ++ [geneset_rat])
        = Ok (db, ["M777"; "M777"])
      ∧ (∃ db1 d1 db2 d2,
           load_xml_msigdb (A:=float) [geneset_rat; geneset_human] = Ok (db1, d1)
           ∧ load_xml_msigdb (A:=float) [geneset_rat] = Ok (db2, d2)
           ∧ ["M777"; "M777"] = d1 ++ d2
           ∧ load_xml_msigdb (A:=float)
               ([geneset_rat; geneset_human] ++ [geneset_mouse])
             = Ok (db1, d1 ++ ["M12345"])
           ∧ load_xml_msigdb (A:=float)
               ([geneset_rat; geneset_human] ++ geneset_mouse :: [geneset_rat])
             = Ok (db, d1 ++ "M12345" :: d2))
      ∧ (∀ key, is_Some (db !! key) →
           ∃ sig', sig' ∈ [geneset_rat; geneset_human] ++ [geneset_rat]
                 ∧ xml_accepts sig' key).
Proof.
  eexists. split; [vm_compute; reflexivity|].
  apply (xml_non_human_discarded [geneset_rat; geneset_human] geneset_mouse
           [geneset_rat] "Mus musculus" "M12345").
  - reflexivity.
  - intros [=].
  - reflexivity.
  - vm_compute. reflexivity.
Defined.

(** The discard list of the four elements, as the loader returns it. *)
Example xml_discard_list_in_file_order :
  ∃ db, load_xml_msigdb (A:=float)
          [geneset_rat; geneset_human; geneset_mouse; geneset_rat]
        = Ok (db, ["M777"; "M12345"; "M777"]).
Proof. eexists. vm_compute. reflexivity. Qed.

(** C2 at four lines: a line for the mouse, a line without genes, the
    line with the unknown symbol [GENE_X] before its last token, and a
    line that is discarded as well. *)
Lemma gmt_unresolved_symbol_discards_witness :
  PyStr.split PyStr.tab line_X_first = "S2" :: "Human" :: ["GENE_X"] ++ ["GENE_A" +:+ LF]
  ∧ id_from_symbol annotation_A (PStr "GENE_X") = Raise (KeyError "GENE_X")
  ∧ ∃ db, load_gmt_genesigdb (A:=float)
            ([line_mouse; line_S_empty] ++ [line_S_genes]) annotation_A
          = Ok (db, ["S3"; "S"])
      ∧ (∃ db1 d1 db2 d2,
           load_gmt_genesigdb (A:=float) [line_mouse; line_S_empty] annotation_A
           = Ok (db1, d1)
           ∧ load_gmt_genesigdb (A:=float) [line_S_genes] annotation_A
             = Ok (db2, d2)
           ∧ ["S3"; "S"] = d1 ++ d2
           ∧ load_gmt_genesigdb (A:=float)
               ([line_mouse; line_S_empty] ++ [line_X_first]) annotation_A
             = Ok (db1, d1 ++ ["S2"])
           ∧ load_gmt_genesigdb (A:=float)
               ([line_mouse; line_S_empty] ++ line_X_first :: [line_S_genes])
               annotation_A
             = Ok (db, d1 ++ "S2" :: d2))
      ∧ (∀ key, is_Some (db !! key) →
           ∃ line', line' ∈ [line_mouse; line_S_empty] ++ [line_S_genes]
                  ∧ gmt_accepts annotation_A line' key).
Proof.
  split; [reflexivity|]. split; [reflexivity|].
  eexists. split; [vm_compute; reflexivity|].
  apply (gmt_unresolved_symbol_discards annotation_A [line_mouse; line_S_empty]
           line_X_first [line_S_genes] "S2" "Human" ["GENE_X"] ("GENE_A" +:+ LF)
           "GENE_X" "GENE_X").
  - reflexivity.
  - reflexivity.
  - apply elem_of_cons. by left.
  - reflexivity.
  - vm_compute. reflexivity.
Defined.

(** The discard list of the four lines, as the loader returns it. *)
Example gmt_discard_list_in_file_order :
  ∃ db, load_gmt_genesigdb (A:=float)
          [line_mouse; line_S_empty; line_X_first; line_S_genes] annotation_A
        = Ok (db, ["S3"; "S2"; "S"]).
Proof. eexists. vm_compute. reflexivity. Qed.

(** A label on two entries of the sample, in binary64: the unweighted
    score is the mean of both, the weighted score is refused. *)
Example average_repeated_label :
  ∃ gs, GeneSignature_init ["a"] WNone None "" = Ok gs
      ∧ average gs (XSeries [("a", 1%float); ("a", 3%float)]) false
        = Ok (Value 2%float)
      ∧ average gs (XSeries [("a", 1%float); ("a", 3%float)]) true
        = Raise (ValueError "matrices are not aligned").
Proof. eexists. split_and!; reflexivity. Qed.

(** Ten values of 0.1, in binary64: numpy's sum of the ten is 1, their
    mean is 0.1; added one after the other they would come to
    0.9999999999999999. *)
Example nanmean_ten_tenths :
  nanmean (replicate 10 tenth) = tenth
  ∧ PrimFloat.ltb (foldl PrimFloat.add 0%float (replicate 10 tenth)) 1%float
    = true.
Proof. split; reflexivity. Qed.



(** * Further properties of the annotation table *)

Section AnnotationLookups.
Implicit Types (a : Annotation) (rows : list row) (r : row) (ver s id : string).

Lemma last_filter_elem_of {X} (P : X → Prop) `{∀ x, Decision (P x)}
    (l : list X) (x : X) :
  last (filter P l) = Some x → x ∈ l ∧ P x.
Proof. intros Hx%last_Some_elem_of. by apply list_elem_of_filter in Hx as [? ?]. Qed.

(** The three cases of a lookup in the reverse index of a table. *)
Lemma id_from_symbol_read_cases a rows ver s :
  let annot := read_from_table a rows ver in
  ((∃ id, id_from_symbol annot (PStr s) = Ok id) ↔ s ∈ Symbol <$> rows)
  ∧ (∀ id, id_from_symbol annot (PStr s) = Ok id →
       ∃ r, r ∈ rows ∧ Symbol r = s ∧ EntrezID r = id)
  ∧ (s ∉ Symbol <$> rows ↔
       id_from_symbol annot (PStr s) = Raise (KeyError s)).
Proof.
  intros annot.
  assert (id_from_symbol annot (PStr s)
          = match last (EntrezID <$> filter (λ r, Symbol r = s) rows) with
            | Some id => Ok id
            | None => Raise (KeyError s)
            end) as ->.
  { cbn. by rewrite reversed_indexing_lookup. }
  rewrite fmap_last.
  destruct (last (filter (λ r, Symbol r = s) rows)) as [r|] eqn:Hlast; cbn.
  - apply last_filter_elem_of in Hlast as [Hr Hs].
    assert (s ∈ Symbol <$> rows) as Hin.
    { rewrite <- Hs. by apply list_elem_of_fmap_2. }
    split_and!.
    + split; [done|]. by eexists.
    + intros id [= <-]. by exists r.
    + split; [done|]. intros [=].
  - apply last_None in Hlast.
    assert (s ∉ Symbol <$> rows) as Hnin.
    { intros (r & -> & Hr)%list_elem_of_fmap.
      by eapply (filter_nil_not_elem_of _ _ r). }
    split_and!.
    + split; [by intros [? [=]]|done].
    + intros id [=].
    + done.
Qed.

(** A symbol resolves exactly when a row of the table carries it; the
    identifier returned is the identifier of a row that carries the
    symbol; a symbol of no row raises [KeyError] with the symbol. *)
Theorem id_from_symbol_resolves a rows ver s :
  let annot := read_from_table a rows ver in
  ((∃ id, id_from_symbol annot (PStr s) = Ok id) ↔ s ∈ Symbol <$> rows)
  ∧ (∀ id, id_from_symbol annot (PStr s) = Ok id →
       ∃ r, r ∈ rows ∧ Symbol r = s ∧ EntrezID r = id)
  ∧ (s ∉ Symbol <$> rows ↔
       id_from_symbol annot (PStr s) = Raise (KeyError s)).
Proof. apply id_from_symbol_read_cases. Qed.

(** The round trip that starts from a symbol.  In a table with pairwise
    distinct identifiers, [gene_from_id(id_from_symbol(s))] is [s] for
    every symbol [s] of the table, shared or not. *)
Theorem gene_from_id_id_from_symbol a rows ver r :
  NoDup (EntrezID <$> rows) → r ∈ rows →
  let annot := read_from_table a rows ver in
  id_from_symbol annot (PStr (Symbol r)) ≫= gene_from_id annot
  = Ok (PStr (Symbol r)).
Proof.
  intros Hnd Hr annot.
  destruct (id_from_symbol_read_cases a rows ver (Symbol r)) as ([_ Hex] & Hsound & _).
  destruct Hex as [id Hid]; [by apply list_elem_of_fmap_2|].
  fold annot in Hid. rewrite Hid. cbn.
  destruct (Hsound id Hid) as (r' & Hr' & Hsym & <-).
  rewrite filter_EntrezID_unique by done. by rewrite Hsym.
Qed.

(** [gene_from_id] on a table that was read raises nothing but
    [KeyError], and raises it exactly for an identifier of no row. *)
Theorem gene_from_id_KeyError a rows ver id :
  let annot := read_from_table a rows ver in
  (gene_from_id annot id = Raise (KeyError id) ↔ id ∉ EntrezID <$> rows)
  ∧ (∀ e, gene_from_id annot id = Raise e → e = KeyError id).
Proof.
  intros annot. cbn.
  destruct (filter (λ r, EntrezID r = id) rows) as [|r0 [|r1 rs]] eqn:Hf.
  - split; [|by intros e [= <-]]. split; [|done]. intros _.
    intros (r & -> & Hr)%list_elem_of_fmap.
    by eapply (filter_nil_not_elem_of _ _ r).
  - split; [|done]. split; [done|]. intros Hnin. exfalso. apply Hnin.
    assert (r0 ∈ filter (λ r, EntrezID r = id) rows) as Hr0 by (rewrite Hf; by left).
    apply list_elem_of_filter in Hr0 as [<- Hr0]. by apply list_elem_of_fmap_2.
  - split; [|done]. split; [done|]. intros Hnin. exfalso. apply Hnin.
    assert (r0 ∈ filter (λ r, EntrezID r = id) rows) as Hr0 by (rewrite Hf; by left).
    apply list_elem_of_filter in Hr0 as [<- Hr0]. by apply list_elem_of_fmap_2.
Qed.

(** An identifier that labels two rows: [gene_from_id] returns a Series
    and the round trip through [id_from_symbol] raises [TypeError]. *)
Theorem id_from_symbol_gene_from_id_duplicate a ver l1 r1 l2 r2 l3 :
  EntrezID r1 = EntrezID r2 →
  let annot := read_from_table a (l1 ++ r1 :: l2 ++ r2 :: l3) ver in
  (∃ cells, gene_from_id annot (EntrezID r1) = Ok (PSeries cells)
          ∧ Symbol r1 ∈ cells ∧ Symbol r2 ∈ cells)
  ∧ gene_from_id annot (EntrezID r1) ≫= id_from_symbol annot = Raise TypeError.
Proof.
  intros Heq annot. cbn.
  rewrite filter_app, filter_cons_True, filter_app, filter_cons_True by done.
  set (f1 := filter (λ r, EntrezID r = EntrezID r1) l1).
  set (f2 := filter (λ r, EntrezID r = EntrezID r1) l2).
  set (f3 := filter (λ r, EntrezID r = EntrezID r1) l3).
  assert (∃ x y rest, f1 ++ r1 :: f2 ++ r2 :: f3 = x :: y :: rest) as (x & y & rest & Hxy).
  { destruct f1 as [|x [|y f1]]; [destruct f2 as [|y f2]|..]; simpl; eauto. }
  assert (r1 ∈ x :: y :: rest ∧ r2 ∈ x :: y :: rest) as [Hr1 Hr2].
  { rewrite <- Hxy. set_solver. }
  rewrite Hxy. split; [|done].
  exists (Symbol <$> x :: y :: rest). split; [done|].
  split; by apply list_elem_of_fmap_2.
Qed.

(** A file that only [save] has written to holds no key that [load]
    reads: after any sequence of saves into an empty file, [load]
    raises [KeyError] for every version. *)
Theorem load_after_saves (annots : list Annotation) (file : hdf_store) b ver :
  for_each (λ file a, save a file) annots ∅ = Ok file →
  load b file ver = Raise (KeyError (load_key ver)).
Proof.
  assert (∀ (f0 : hdf_store), f0 !! load_key ver = None →
            for_each (λ file a, save a file) annots f0 = Ok file →
            file !! load_key ver = None) as Hinv.
  { induction annots as [|a annots IH]; intros f0 Hf0; simpl.
    - by intros [= <-].
    - destruct (save a f0) as [f1|] eqn:Hsave; [|done].
      apply IH. unfold save in Hsave.
      destruct (__data a); [|done]. destruct (__version a) as [|v]; [done|].
      injection Hsave as <-. rewrite lookup_insert_ne; [done|].
      unfold save_key, load_key. simpl. intros [=]. }
  intros Hfile. unfold load. cbn. by rewrite (Hinv ∅ (lookup_empty _) Hfile).
Qed.

End AnnotationLookups.

(** * Further properties of signatures and scores *)

Section SignatureMore.
Context {A : Type} `{Scalar A}.
Implicit Types (gid : list string) (gs : GeneSignature A).

(** What the constructor stores: a weight for every position of [gid]. *)
Lemma GeneSignature_init_gset gid w b inf gs :
  GeneSignature_init gid w b inf = Ok gs →
  ∃ ws, length ws = length gid ∧ gset gs = dict (zip gid ws).
Proof.
  unfold GeneSignature_init, gset.
  destruct w as [|[|w0 [|w1 w]]|c]; repeat case_decide; intros [= <-]; simpl;
    eauto using length_replicate.
Qed.

(** [genes()] after a construction that succeeds: every gene supplied,
    each once; so the genes are the distinct genes supplied, up to
    order, and there are at most as many as were supplied. *)
Theorem genes_no_loss_no_duplication gid w b inf gs :
  GeneSignature_init gid w b inf = Ok gs →
  NoDup (genes gs)
  ∧ (∀ g, g ∈ genes gs ↔ g ∈ gid)
  ∧ genes gs ≡ₚ remove_dups gid
  ∧ (length (genes gs) ≤ length gid)%nat.
Proof.
  intros Hgs. pose proof (GeneSignature_init_NoDup _ _ _ _ _ Hgs) as Hnd.
  destruct (GeneSignature_init_gset _ _ _ _ _ Hgs) as (ws & Hlen & Hgset).
  assert (∀ g, g ∈ genes gs ↔ g ∈ gid) as Helem.
  { intros g. unfold genes. fold (gset gs). rewrite Hgset.
    apply dict_zip_keys. by rewrite Hlen. }
  split_and!; [done..| |].
  - apply NoDup_Permutation; [done|apply NoDup_remove_dups|].
    intros g. by rewrite Helem, elem_of_remove_dups.
  - apply submseteq_length, NoDup_submseteq; [done|]. intros g. apply Helem.
Qed.

(** The constructor fails in one case only: a weights list whose length
    is neither 1 nor the number of genes supplied; the exception is
    then [ValueError]. *)
Theorem GeneSignature_init_fails_iff gid (w : weights_arg A) b inf :
  ((∃ e, GeneSignature_init gid w b inf = Raise e)
   ↔ ∃ l, w = WList l ∧ length l ≠ 1%nat ∧ length l ≠ length gid)
  ∧ (∀ e, GeneSignature_init gid w b inf = Raise e → ∃ msg, e = ValueError msg).
Proof.
  unfold GeneSignature_init.
  destruct w as [|[|w0 [|w1 w]]|c]; repeat case_decide; simpl in *.
  all: split; [split|]; try (by intros [? [=]]); try (by intros ? [=]).
  all: try (intros (l & [= <-] & Hl1 & Hl); simpl in *; congruence).
  all: try (intros _; eexists; split_and!; [done|simpl; lia|done]).
  all: try (intros e [= <-]; by eexists).
  all: try (intros (l & [=] & _)).
  all: by eexists.
Qed.

(** When [GSS.average] returns.  For a signature built by the
    constructor, the call returns a score exactly when the input is a
    Series or a table that has every gene of the signature and, for
    the weighted score, has none of them on two entries (two columns).
    On another kind of input it raises [ValueError]; on a Series or
    table that lacks a gene it raises [KeyError], weighted or not: no
    score is computed over the genes that are there; and the weighted
    score of an input that has every gene, one of them twice, is
    refused with [ValueError]. *)
Theorem average_returns_iff_covers gid w b inf gs (X : expression A)
    (weighted : bool) :
  GeneSignature_init gid w b inf = Ok gs →
  ((∃ sc, average gs X weighted = Ok sc)
   ↔ covers X (genes gs) ∧ (weighted = true → single X (genes gs)))
  ∧ (∀ e, average gs X weighted = Raise e →
       match X with
       | XOther => e = ValueError "X must be a Series or DataFrame instance"
       | _ =>
           ((∃ k, e = KeyError k) ∧ ¬ covers X (genes gs))
           ∨ (e = ValueError "matrices are not aligned" ∧ weighted = true
              ∧ covers X (genes gs) ∧ ¬ single X (genes gs))
       end).
Proof.
  intros Hnd%GeneSignature_init_NoDup.
  destruct X as [X|F|].
  - destruct (decide (Forall (λ g, g ∈ X.*1) (genes gs))) as [Hall|Hex].
    + rewrite Forall_forall in Hall.
      assert (covers (XSeries X) (genes gs)) as Hcov.
      { intros g Hg. by apply dict_get_is_Some, Hall. }
      destruct weighted.
      * destruct (selected_once_or_twice (series_at X) (genes gs))
          as [[xs Hxs]|(g & Hg & Hlen)].
        { intros g Hg Hnil%series_at_nil. by apply Hnil, Hall. }
        { intros g e. apply series_at_label. }
        -- rewrite (average_series_dot gs X xs Hnd Hxs). split.
           ++ split; [|by eexists]. intros _. split; [done|].
              intros _ g [i Hi]%list_elem_of_lookup.
              destruct (Forall2_lookup_l _ _ _ _ _ Hxs Hi) as (x & _ & ->).
              done.
           ++ intros e [=].
        -- rewrite (average_series_repeated gs X g Hall Hg Hlen).
           assert (¬ single (XSeries X) (genes gs)) as Hnone.
           { intros Hone. specialize (Hone g Hg). lia. }
           split.
           ++ split; [by intros [? [=]]|]. intros [_ Hone]. destruct Hnone. by apply Hone.
           ++ intros e [= <-]. by right.
      * rewrite (average_series_mean gs X Hall). split.
        -- split; [|by eexists]. intros _. by split.
        -- intros e [=].
    + apply not_Forall_Exists, Exists_exists in Hex as (g & Hg & Hnin); [|apply _].
      assert (¬ covers (XSeries X) (genes gs)) as Hncov.
      { intros Hcov. by apply Hnin, dict_get_is_Some, Hcov. }
      destruct (average_missing gs (XSeries X) weighted) as [k ->]; [by exists g|].
      split.
      * split; [by intros [? [=]]|]. by intros [Hcov _].
      * intros e [= <-]. left. split; [by exists k|done].
  - destruct (decide (Forall (λ g, g ∈ f_columns F) (genes gs))) as [Hall|Hex].
    + rewrite Forall_forall in Hall.
      assert (covers (XFrame F) (genes gs)) as Hcov by done.
      destruct weighted.
      * destruct (selected_once_or_twice (columns_at F) (genes gs))
          as [[js Hjs]|(g & Hg & Hlen)].
        { intros g Hg Hnil%columns_at_nil. by apply Hnil, Hall. }
        { intros g e. apply columns_at_label. }
        -- rewrite (average_frame_dot gs F js Hnd Hjs). split.
           ++ split; [|by eexists]. intros _. split; [done|].
              intros _ g [i Hi]%list_elem_of_lookup.
              destruct (Forall2_lookup_l _ _ _ _ _ Hjs Hi) as (j & _ & ->).
              done.
           ++ intros e [=].
        -- rewrite (average_frame_repeated gs F g Hall Hg Hlen).
           assert (¬ single (XFrame F) (genes gs)) as Hnone.
           { intros Hone. specialize (Hone g Hg). lia. }
           split.
           ++ split; [by intros [? [=]]|]. intros [_ Hone]. destruct Hnone. by apply Hone.
           ++ intros e [= <-]. by right.
      * rewrite (average_frame_mean gs F Hall). split.
        -- split; [|by eexists]. intros _. by split.
        -- intros e [=].
    + apply not_Forall_Exists, Exists_exists in Hex as (g & Hg & Hnin); [|apply _].
      assert (¬ covers (XFrame F) (genes gs)) as Hncov.
      { intros Hcov. by apply Hnin, Hcov. }
      destruct (average_missing gs (XFrame F) weighted) as [k ->]; [by exists g|].
      split.
      * split; [by intros [? [=]]|]. by intros [Hcov _].
      * intros e [= <-]. left. split; [by exists k|done].
  - split; [|by intros e [= <-]]. split; [by intros [? [=]]|by intros [? _]].
Qed.

End SignatureMore.

(** The empty signature has no score: on every Series, weighted or
    not, [GSS.average] returns NaN (the mean of no value, or zero
    divided by zero). *)
Theorem average_empty_signature w b inf gs (X : series float) (weighted : bool) :
  GeneSignature_init (A:=float) [] w b inf = Ok gs →
  genes gs = []
  ∧ ∃ v, average gs (XSeries X) weighted = Ok (Value v)
       ∧ PrimFloat.is_nan v = true.
Proof.
  intros Hgs.
  assert (_gset gs = []) as Hgset.
  { unfold GeneSignature_init in Hgs.
    destruct w as [|[|w0 [|w1 w]]|c]; repeat case_decide; try done;
      by injection Hgs as <-. }
  unfold genes. rewrite Hgset. split; [done|].
  unfold average, genes, gset. rewrite Hgset.
  destruct weighted; eexists; split; reflexivity.
Qed.

(** * Further properties of the loaders *)

Lemma list_comp_Ok_elem {X Y} (f : X → result Y) (l : list X) ys x :
  list_comp f l = Ok ys → x ∈ l → ∃ y, f x = Ok y ∧ y ∈ ys.
Proof.
  intros Hall%list_comp_Ok_Forall2 [i Hi]%list_elem_of_lookup.
  destruct (Forall2_lookup_l _ _ _ _ _ Hall Hi) as (y & Hy & Hfx).
  exists y. split; [done|]. by eapply list_elem_of_lookup_2.
Qed.

Section LoaderMore.
Context {A : Type} `{Scalar A}.
Implicit Types (st : loaded (A:=A)) (os : list (outcome (A:=A))).
Implicit Types (db : gmap string (GeneSignature A)).

Lemma accepted_lookup_Some db os key gs :
  accepted db os !! key = Some gs →
  db !! key = Some gs ∨ Accepted key gs ∈ os.
Proof.
  revert db. induction os as [|o os IH]; intros db; simpl; [by left|].
  intros [Hdb|Hgs]%IH; [|right; by right].
  destruct o as [id|key' gs']; [by left|].
  destruct (decide (key' = key)) as [->|Hne].
  - rewrite lookup_insert_eq in Hdb. injection Hdb as ->. right. by left.
  - left. by rewrite lookup_insert_ne in Hdb.
Qed.

Lemma accepted_lookup_mono db os key :
  is_Some (db !! key) → is_Some (accepted db os !! key).
Proof.
  revert db. induction os as [|o os IH]; intros db; simpl; [done|].
  intros Hdb. apply IH. destruct o as [id|key' gs']; [done|].
  destruct (decide (key' = key)) as [->|Hne].
  - rewrite lookup_insert_eq. by eexists.
  - by rewrite lookup_insert_ne.
Qed.

Lemma accepted_elem_of db os key gs :
  Accepted key gs ∈ os → is_Some (accepted db os !! key).
Proof.
  revert db. induction os as [|o os IH]; intros db; [by intros ?%not_elem_of_nil|].
  intros [<-|Hin]%elem_of_cons; simpl; [|by apply IH].
  apply accepted_lookup_mono. rewrite lookup_insert_eq. by eexists.
Qed.

Lemma discarded_ids_elem_of os id :
  Discarded id ∈ os → id ∈ discarded_ids os.
Proof.
  intros Hin. unfold discarded_ids. apply list_elem_of_omap.
  exists (Discarded id). by split.
Qed.

(** What a load that returns is made of: the outcomes of the entries. *)
Lemma loaded_outcomes {X} (f : X → result (outcome (A:=A))) xs db d :
  (os ← list_comp f xs; Ok (foldl record (∅, []) os)) = Ok (db, d) →
  ∃ os, list_comp f xs = Ok os ∧ db = accepted ∅ os ∧ d = discarded_ids os.
Proof.
  destruct (list_comp f xs) as [os|]; [|done]. cbn.
  rewrite foldl_record. intros [= <- <-]. by exists os.
Qed.

Lemma xml_outcome_discard_name sig (o : outcome (A:=A)) :
  xml_outcome sig = Ok o →
  match o with Discarded id => Some id | Accepted _ _ => None end
  = xml_discard_name sig.
Proof.
  unfold xml_outcome, xml_discard_name, attrib.
  destruct (sig !! "ORGANISM") as [organism|]; cbn; [|done].
  case_decide.
  - destruct (sig !! "SYSTEMATIC_NAME"); cbn; [|done]. by intros [= <-].
  - destruct (sig !! "MEMBERS_EZID"); cbn; [|done].
    destruct (sig !! "STANDARD_NAME"); cbn; [|done].
    destruct (sig !! "CATEGORY_CODE"); cbn; [|done].
    destruct (sig !! "SYSTEMATIC_NAME"); cbn; [|done]. by intros [= <-].
Qed.

(** The discard list of the markup loader: the systematic names of the
    elements whose organism is not ['Homo sapiens'], each once per
    element, in document order. *)
Theorem load_xml_msigdb_discarded genesets db d :
  load_xml_msigdb (A:=A) genesets = Ok (db, d) →
  d = omap xml_discard_name genesets.
Proof.
  rewrite load_xml_msigdb_outcomes.
  intros (os & Hos%list_comp_Ok_Forall2 & _ & ->)%loaded_outcomes.
  unfold discarded_ids.
  induction Hos as [|sig o genesets os Hsig _ IH]; [done|].
  cbn [omap list_omap]. rewrite IH, <- (xml_outcome_discard_name sig o Hsig).
  done.
Qed.

Lemma xml_outcome_Accepted_inv sig key (gs : GeneSignature A) :
  xml_outcome sig = Ok (Accepted key gs) →
  xml_accepts sig key
  ∧ ∃ members standard,
      sig !! "MEMBERS_EZID" = Some members
      ∧ sig !! "STANDARD_NAME" = Some standard
      ∧ GeneSignature_init (PyStr.split PyStr.comma members) WNone None
          (msigdb_url +:+ standard) = Ok gs.
Proof.
  intros Hacc. split; [by eapply xml_outcome_Accepted|].
  revert Hacc. unfold xml_outcome, attrib.
  destruct (sig !! "ORGANISM") as [organism|]; cbn; [|done].
  case_decide; [by destruct (sig !! "SYSTEMATIC_NAME")|].
  destruct (sig !! "MEMBERS_EZID") as [members|]; cbn; [|done].
  destruct (sig !! "STANDARD_NAME") as [standard|]; cbn; [|done].
  destruct (sig !! "CATEGORY_CODE"); cbn; [|done].
  destruct (sig !! "SYSTEMATIC_NAME"); cbn; [|done].
  intros [= _ <-]. by exists members, standard.
Qed.

(** What the markup loader puts into the mapping.  Every signature of
    the mapping comes from a human element of the file with that key:
    its genes are the identifiers listed in [MEMBERS_EZID], every
    weight is one, the bias is zero and the info is the MSigDB address
    followed by the standard name of the element. *)
Theorem load_xml_msigdb_signature genesets db d key gs :
  load_xml_msigdb (A:=A) genesets = Ok (db, d) →
  db !! key = Some gs →
  ∃ sig members standard,
    sig ∈ genesets ∧ xml_accepts sig key
    ∧ sig !! "MEMBERS_EZID" = Some members
    ∧ sig !! "STANDARD_NAME" = Some standard
    ∧ (∀ g, g ∈ genes gs ↔ g ∈ PyStr.split PyStr.comma members)
    ∧ (∀ g, g ∈ genes gs → dict_get g (gset gs) = Some s_one)
    ∧ bias gs = s_zero
    ∧ info gs = msigdb_url +:+ standard.
Proof.
  rewrite load_xml_msigdb_outcomes.
  intros (os & Hos & -> & _)%loaded_outcomes Hkey.
  apply accepted_lookup_Some in Hkey as [Hkey|Hkey]; [by rewrite lookup_empty in Hkey|].
  destruct (list_comp_Ok_inv _ _ _ _ Hos Hkey) as (sig & Hsig & Hout).
  apply xml_outcome_Accepted_inv in Hout as (Hacc & members & standard & Hm & Hs & Hgs).
  destruct (GeneSignature_init_default (A:=A) (PyStr.split PyStr.comma members)
              None (msigdb_url +:+ standard)) as (gs' & Hgs' & Hgenes & Hw & Hinfo).
  rewrite Hgs in Hgs'. injection Hgs' as <-.
  exists sig, members, standard. split_and!; try done.
  - intros g Hg. by apply Hw, Hgenes.
  - by injection Hgs as <-.
Qed.

(** No element is lost by the markup loader: when the load returns, an
    element either has its systematic name in the discard list (its
    organism is not ['Homo sapiens']) or has its key in the mapping. *)
Theorem load_xml_msigdb_accounts genesets db d sig :
  load_xml_msigdb (A:=A) genesets = Ok (db, d) → sig ∈ genesets →
  (∃ name, xml_discard_name sig = Some name ∧ name ∈ d)
  ∨ (∃ key, xml_accepts sig key ∧ is_Some (db !! key)).
Proof.
  rewrite load_xml_msigdb_outcomes.
  intros (os & Hos & -> & ->)%loaded_outcomes Hsig.
  destruct (list_comp_Ok_elem _ _ _ _ Hos Hsig) as ([name|key gs] & Hout & Ho).
  - left. exists name. split; [|by apply discarded_ids_elem_of].
    by rewrite <- (xml_outcome_discard_name sig _ Hout).
  - right. exists key. split; [by eapply xml_outcome_Accepted|].
    by eapply accepted_elem_of.
Qed.

(** The organism filter of the delimited loader.  A line whose second
    field does not begin with ['Human'] is discarded whatever its
    symbols and whatever the annotation.  When the other lines load:
    the lines before it load, with a discard list [d1], the lines after
    it load, with a discard list [d2], and the discard list of the
    other lines is [d1] followed by [d2]; the line leaves the mapping
    of the lines before it as it is and appends its first field to
    [d1]; and the file loads to the mapping of the other lines and to
    the discard list [d1], the first field, [d2]. *)
Theorem gmt_non_human_discarded annot pre line post t0 t1 rest db d :
  PyStr.split PyStr.tab line = t0 :: t1 :: rest →
  PyStr.startswith t1 "Human" = false →
  load_gmt_genesigdb (A:=A) (pre ++ post) annot = Ok (db, d) →
  ∃ db1 d1 db2 d2,
    load_gmt_genesigdb (A:=A) pre annot = Ok (db1, d1)
    ∧ load_gmt_genesigdb (A:=A) post annot = Ok (db2, d2)
    ∧ d = d1 ++ d2
    ∧ load_gmt_genesigdb (A:=A) (pre ++ [line]) annot = Ok (db1, d1 ++ [t0])
    ∧ load_gmt_genesigdb (A:=A) (pre ++ line :: post) annot
      = Ok (db, d1 ++ t0 :: d2).
Proof.
  intros Htok Hhuman. rewrite !load_gmt_genesigdb_outcomes.
  apply discarded_entry. unfold gmt_outcome. by rewrite Htok, Hhuman.
Qed.

Lemma gmt_outcome_inv annot line (o : outcome (A:=A)) :
  gmt_outcome annot line = Ok o →
  ∃ t0 t1 rest, PyStr.split PyStr.tab line = t0 :: t1 :: rest
    ∧ match o with
      | Discarded id => id = t0
      | Accepted key gs =>
          key = "GS_" +:+ t0
          ∧ ∃ gid, list_comp (λ g, id_from_symbol annot (PStr g))
                     (gmt_symbols (t0 :: t1 :: rest) t1) = Ok gid
                 ∧ GeneSignature_init gid WNone None (genesigdb_url +:+ t0) = Ok gs
      end.
Proof.
  unfold gmt_outcome.
  destruct (PyStr.split PyStr.tab line) as [|t0 [|t1 rest]]; [done..|].
  intros Ho. exists t0, t1, rest. split; [done|]. revert Ho.
  destruct (negb _); [by intros [= <-]|].
  destruct (list_comp _ _) as [gid|[]]; try done; [|by intros [= <-]].
  cbn. intros [= <-]. split; [done|]. by exists gid.
Qed.

(** No line is lost by the delimited loader: when the load returns,
    every line has at least two fields, and its identifier is in the
    discard list or its key ["GS_" + identifier] is in the mapping, the
    line having passed the filter with every symbol looked up for it
    resolved. *)
Theorem load_gmt_genesigdb_accounts lines annot db d line :
  load_gmt_genesigdb (A:=A) lines annot = Ok (db, d) → line ∈ lines →
  ∃ t0 t1 rest, PyStr.split PyStr.tab line = t0 :: t1 :: rest
    ∧ (t0 ∈ d
       ∨ (gmt_accepts annot line ("GS_" +:+ t0)
          ∧ is_Some (db !! ("GS_" +:+ t0)))).
Proof.
  rewrite load_gmt_genesigdb_outcomes.
  intros (os & Hos & -> & ->)%loaded_outcomes Hline.
  destruct (list_comp_Ok_elem _ _ _ _ Hos Hline) as (o & Hout & Ho).
  destruct (gmt_outcome_inv _ _ _ Hout) as (t0 & t1 & rest & Htok & Hcase).
  exists t0, t1, rest. split; [done|].
  destruct o as [id|key gs].
  - left. subst id. by apply discarded_ids_elem_of.
  - right. destruct Hcase as [-> _]. split.
    + by eapply gmt_outcome_Accepted.
    + by eapply accepted_elem_of.
Qed.

(** What the delimited loader puts into the mapping.  Every signature
    of the mapping comes from a line of the file: its key is ["GS_"]
    followed by the first field of the line, every gene is an
    identifier the annotation returns for some symbol, every weight is
    one, the bias is zero and the info is the GeneSigDB address
    followed by the first field. *)
Theorem load_gmt_genesigdb_signature lines annot db d key gs :
  load_gmt_genesigdb (A:=A) lines annot = Ok (db, d) →
  db !! key = Some gs →
  ∃ line t0 t1 rest,
    line ∈ lines ∧ PyStr.split PyStr.tab line = t0 :: t1 :: rest
    ∧ key = "GS_" +:+ t0
    ∧ (∀ g, g ∈ genes gs → ∃ s, id_from_symbol annot (PStr s) = Ok g)
    ∧ (∀ g, g ∈ genes gs → dict_get g (gset gs) = Some s_one)
    ∧ bias gs = s_zero
    ∧ info gs = genesigdb_url +:+ t0.
Proof.
  rewrite load_gmt_genesigdb_outcomes.
  intros (os & Hos & -> & _)%loaded_outcomes Hkey.
  apply accepted_lookup_Some in Hkey as [Hkey|Hkey]; [by rewrite lookup_empty in Hkey|].
  destruct (list_comp_Ok_inv _ _ _ _ Hos Hkey) as (line & Hline & Hout).
  destruct (gmt_outcome_inv _ _ _ Hout)
    as (t0 & t1 & rest & Htok & -> & gid & Hgid & Hgs).
  destruct (GeneSignature_init_default (A:=A) gid None (genesigdb_url +:+ t0))
    as (gs' & Hgs' & Hgenes & Hw & Hinfo).
  rewrite Hgs in Hgs'. injection Hgs' as <-.
  exists line, t0, t1, rest. split_and!; try done.
  - intros g Hg%Hgenes.
    destruct (list_comp_Ok_inv _ _ _ _ Hgid Hg) as (s & _ & Hs). by exists s.
  - intros g Hg. by apply Hw, Hgenes.
  - by injection Hgs as <-.
Qed.

(** The delimited loader needs an annotation that holds a table.  With
    an annotation that was never read nor loaded, a file with a line
    that passes the organism filter and has a gene field does not
    load: the lookup raises [TypeError], which the loader does not
    catch (or an earlier line without a tab raises [IndexError]). *)
Theorem load_gmt_genesigdb_unread_annotation lines annot line t0 t1 t2 rest :
  __gene_to_id annot = None → line ∈ lines →
  PyStr.split PyStr.tab line = t0 :: t1 :: t2 :: rest →
  PyStr.startswith t1 "Human" = true →
  ∃ e, load_gmt_genesigdb (A:=A) lines annot = Raise e
     ∧ (e = TypeError ∨ e = IndexError).
Proof.
  intros Hnone Hline Htok Hhuman. rewrite load_gmt_genesigdb_outcomes.
  destruct (list_comp_Raise (gmt_outcome (A:=A) annot) lines
              (λ e, e = TypeError ∨ e = IndexError)) as (e & -> & He).
  - apply Forall_forall. intros l _. unfold gmt_outcome.
    destruct (PyStr.split PyStr.tab l) as [|u0 [|u1 us]]; [by right..|].
    destruct (negb _); [done|].
    pose proof (list_comp_cases (λ g, id_from_symbol annot (PStr g))
                  (gmt_symbols (u0 :: u1 :: us) u1) (λ e, e = TypeError)) as Hc.
    destruct (list_comp _ _) as [gid|e]; [done|].
    rewrite Hc; [by left|]. apply Forall_forall. intros g _.
    unfold id_from_symbol. by rewrite Hnone.
  - apply Exists_exists. exists line. split; [done|].
    unfold gmt_outcome. rewrite Htok, Hhuman. cbn [negb].
    destruct (gmt_symbols (t0 :: t1 :: t2 :: rest) t1) as [|g gs] eqn:Hsym.
    + apply (f_equal length) in Hsym. unfold gmt_symbols in Hsym.
      rewrite length_drop, length_insert in Hsym. simpl in Hsym. lia.
    + simpl. unfold id_from_symbol. by rewrite Hnone.
  - by exists e.
Qed.

(** The discard list of a load that returns, when [discard] tells the
    identifier an entry adds to it. *)
Lemma loaded_discard_list {X} (f : X → result (outcome (A:=A)))
    (discard : X → option string) xs db d :
  (∀ x o, f x = Ok o →
     match o with Discarded id => Some id | Accepted _ _ => None end = discard x) →
  (os ← list_comp f xs; Ok (foldl record (∅, []) os)) = Ok (db, d) →
  d = omap discard xs.
Proof.
  intros Hf (os & Hos%list_comp_Ok_Forall2 & _ & ->)%loaded_outcomes.
  unfold discarded_ids.
  induction Hos as [|x o xs os Hx _ IH]; [done|].
  cbn [omap list_omap]. by rewrite IH, <- (Hf x o Hx).
Qed.

Lemma existsb_elem_of {X} (f : X → bool) (l : list X) (x : X) :
  x ∈ l → f x = true → existsb f l = true.
Proof.
  induction 1 as [y l|y z l _ IH]; simpl; intros Hx.
  - by rewrite Hx.
  - rewrite IH by done. apply orb_true_r.
Qed.

Lemma existsb_none {X} (f : X → bool) (l : list X) :
  Forall (λ x, f x = false) l → existsb f l = false.
Proof. induction 1 as [|x l Hx _ IH]; simpl; [done|]. by rewrite Hx, IH. Qed.

Lemma gmt_outcome_discard_id annot line (o : outcome (A:=A)) :
  gmt_outcome annot line = Ok o →
  match o with Discarded id => Some id | Accepted _ _ => None end
  = gmt_discard_id annot line.
Proof.
  unfold gmt_outcome, gmt_discard_id.
  destruct (PyStr.split PyStr.tab line) as [|t0 [|t1 rest]]; [done..|].
  destruct (negb _); [by intros [= <-]|].
  destruct (list_comp _ _) as [gid|e] eqn:Hgid.
  - cbn. intros [= <-].
    rewrite existsb_none; [done|].
    apply list_comp_Ok_Forall2 in Hgid.
    apply Forall_forall. intros g [i Hi]%list_elem_of_lookup.
    destruct (Forall2_lookup_l _ _ _ _ _ Hgid Hi) as (id & _ & Hid).
    unfold lookup_KeyError. by rewrite Hid.
  - apply list_comp_Raise_inv in Hgid as (g & Hg & Hid).
    destruct e; try done. intros [= <-].
    rewrite (existsb_elem_of _ _ g); [done..|].
    unfold lookup_KeyError. by rewrite Hid.
Qed.

(** C3 (as the code has it).  A malformed entry is not turned into a
    discarded one: it ends the load with an exception.  With an
    annotation that was read, [load_gmt_genesigdb] raises [IndexError]
    when some line has fewer than two tab-separated fields and returns
    otherwise; [load_xml_msigdb] raises [KeyError] when some element
    lacks an attribute the loader reads from it ([xml_reads]) and
    returns otherwise.  The discard list of a load that returns holds,
    in the order of the file and once per entry, the identifiers of
    the entries with another organism and, for the delimited loader,
    of the lines for which the lookup of a symbol raises [KeyError]
    ([xml_discard_name], [gmt_discard_id]): nothing else is
    discarded. *)
Theorem loaders_raise_on_malformed_entry :
  (∀ a rows ver lines,
     let annot := read_from_table a rows ver in
     (Exists (λ line, (length (PyStr.split PyStr.tab line) < 2)%nat) lines →
        load_gmt_genesigdb (A:=A) lines annot = Raise IndexError)
     ∧ (Forall (λ line, (2 ≤ length (PyStr.split PyStr.tab line))%nat) lines →
        ∃ db, load_gmt_genesigdb (A:=A) lines annot
              = Ok (db, omap (gmt_discard_id annot) lines)))
  ∧ (∀ genesets,
     (Exists (λ sig, ∃ n, n ∈ xml_reads sig ∧ sig !! n = None) genesets →
        ∃ n, load_xml_msigdb (A:=A) genesets = Raise (KeyError n))
     ∧ (Forall (λ sig, ∀ n, n ∈ xml_reads sig → is_Some (sig !! n)) genesets →
        ∃ db, load_xml_msigdb (A:=A) genesets
              = Ok (db, omap xml_discard_name genesets))).
Proof.
  split.
  - intros a rows ver lines annot. rewrite load_gmt_genesigdb_outcomes. split.
    + intros Hex.
      destruct (list_comp_Raise (gmt_outcome annot) lines (λ e, e = IndexError))
        as (e & -> & ->); [| |done].
      * apply Forall_forall. intros line _.
        pose proof (gmt_outcome_read a rows ver line) as Hl. fold annot in Hl.
        destruct (gmt_outcome annot line); [done|tauto].
      * eapply Exists_impl; [exact Hex|]. intros line Hlen.
        pose proof (gmt_outcome_read a rows ver line) as Hl. fold annot in Hl.
        destruct (gmt_outcome annot line); [simpl in *; lia|done].
    + intros Hall.
      destruct (list_comp_Ok (gmt_outcome annot) lines) as [os Hos].
      { eapply Forall_impl; [exact Hall|]. intros line Hlen.
        pose proof (gmt_outcome_read a rows ver line) as Hl. fold annot in Hl.
        destruct (gmt_outcome annot line); [by eexists|]. simpl in *; lia. }
      destruct (foldl record (∅, []) os) as [db d] eqn:Hst.
      exists db. rewrite Hos. cbn. rewrite Hst. do 2 f_equal.
      apply (loaded_discard_list (gmt_outcome annot) _ lines db).
      * apply gmt_outcome_discard_id.
      * rewrite Hos. cbn. by rewrite Hst.
  - intros genesets. rewrite load_xml_msigdb_outcomes. split.
    + intros Hex.
      destruct (list_comp_Raise xml_outcome genesets (λ e, ∃ n, e = KeyError n))
        as (e & -> & n & ->); [| |by eexists].
      * apply Forall_forall. intros sig _.
        pose proof (xml_outcome_cases sig) as Hs.
        destruct (xml_outcome sig); [done|]. destruct Hs as (n & -> & _). eauto.
      * eapply Exists_impl; [exact Hex|]. intros sig (n & Hn & Hnone).
        pose proof (xml_outcome_cases sig) as Hs.
        destruct (xml_outcome sig); [|done].
        destruct (Hs n Hn) as [? ?]. congruence.
    + intros Hall.
      destruct (list_comp_Ok xml_outcome genesets) as [os Hos].
      { eapply Forall_impl; [exact Hall|]. intros sig Hsig.
        pose proof (xml_outcome_cases sig) as Hs.
        destruct (xml_outcome sig); [by eexists|].
        destruct Hs as (n & _ & Hn & Hnone). destruct (Hsig n Hn). congruence. }
      destruct (foldl record (∅, []) os) as [db d] eqn:Hst.
      exists db. rewrite Hos. cbn. rewrite Hst. do 2 f_equal.
      apply (loaded_discard_list xml_outcome _ genesets db).
      * apply xml_outcome_discard_name.
      * rewrite Hos. cbn. by rewrite Hst.
Qed.

End LoaderMore.

(** * The further properties at concrete inputs *)

(** The symbol [GENE_A] is shared by 100 and 300: it resolves to 300,
    whose symbol it is. *)
Lemma gene_from_id_id_from_symbol_witness :
  id_from_symbol (read_from_table (Annotation_init (VerInt 0)) shared_rows "v1")
    (PStr "GENE_A")
  ≫= gene_from_id (read_from_table (Annotation_init (VerInt 0)) shared_rows "v1")
  = Ok (PStr "GENE_A").
Proof.
  apply (gene_from_id_id_from_symbol (Annotation_init (VerInt 0)) shared_rows
           "v1" (gene_row "100" "GENE_A")).
  - apply (bool_decide_unpack _). vm_compute. exact I.
  - apply elem_of_cons. by left.
Defined.

(** The identifier 100 on two rows. *)
Lemma id_from_symbol_gene_from_id_duplicate_witness :
  gene_from_id (read_from_table (Annotation_init (VerInt 0))
                  [gene_row "100" "GENE_A"; gene_row "100" "GENE_B"] "v1") "100"
  ≫= id_from_symbol (read_from_table (Annotation_init (VerInt 0))
                        [gene_row "100" "GENE_A"; gene_row "100" "GENE_B"] "v1")
  = Raise TypeError.
Proof.
  apply (proj2 (id_from_symbol_gene_from_id_duplicate (Annotation_init (VerInt 0))
                  "v1" [] (gene_row "100" "GENE_A") [] (gene_row "100" "GENE_B") []
                  eq_refl)).
Defined.

(** Two saves, then a load of the version saved first. *)
Lemma load_after_saves_witness :
  ∃ file,
    for_each (λ file a, save a file)
      [read_from_table (Annotation_init (VerInt 0)) shared_rows "2014";
       read_from_table (Annotation_init (VerInt 0)) shared_rows "2015"] ∅
    = Ok file
    ∧ load (Annotation_init (VerInt 0)) file "2014"
      = Raise (KeyError (load_key "2014")).
Proof.
  eexists. split; [vm_compute; reflexivity|].
  apply (load_after_saves
           [read_from_table (Annotation_init (VerInt 0)) shared_rows "2014";
            read_from_table (Annotation_init (VerInt 0)) shared_rows "2015"]).
  vm_compute. reflexivity.
Defined.

Lemma genes_no_loss_no_duplication_witness :
  ∃ gs, GeneSignature_init (A:=float) ["a"; "b"; "a"] WNone None "" = Ok gs
      ∧ NoDup (genes gs)
      ∧ (∀ g, g ∈ genes gs ↔ g ∈ ["a"; "b"; "a"])
      ∧ genes gs ≡ₚ remove_dups ["a"; "b"; "a"]
      ∧ (length (genes gs) ≤ length ["a"; "b"; "a"])%nat.
Proof.
  eexists. split; [reflexivity|].
  apply (genes_no_loss_no_duplication (A:=float) ["a"; "b"; "a"] WNone None "").
  reflexivity.
Defined.

(** A Series without the gene [b]: no score. *)
Lemma average_returns_iff_covers_witness :
  ∃ gs, GeneSignature_init (A:=float) ["a"; "b"] WNone None "" = Ok gs
      ∧ ((∃ sc, average gs (XSeries sample_without_b) false = Ok sc)
         ↔ covers (XSeries sample_without_b) (genes gs)
           ∧ (false = true → single (XSeries sample_without_b) (genes gs)))
      ∧ ∀ e, average gs (XSeries sample_without_b) false = Raise e →
          ((∃ k, e = KeyError k) ∧ ¬ covers (XSeries sample_without_b) (genes gs))
          ∨ (e = ValueError "matrices are not aligned" ∧ false = true
             ∧ covers (XSeries sample_without_b) (genes gs)
             ∧ ¬ single (XSeries sample_without_b) (genes gs)).
Proof.
  eexists. split; [reflexivity|].
  apply (average_returns_iff_covers (A:=float) ["a"; "b"] WNone None "" _
           (XSeries sample_without_b) false).
  reflexivity.
Defined.

Lemma average_empty_signature_witness :
  ∃ gs, GeneSignature_init (A:=float) [] WNone None "" = Ok gs
      ∧ genes gs = []
      ∧ ∃ v, average gs (XSeries sample_tenths) true = Ok (Value v)
           ∧ PrimFloat.is_nan v = true.
Proof.
  eexists. split; [reflexivity|].
  apply (average_empty_signature WNone None ""). reflexivity.
Defined.

(** The mouse element, then the human element. *)
Lemma load_xml_msigdb_discarded_witness :
  ∃ db d, load_xml_msigdb (A:=float) [geneset_mouse; geneset_human] = Ok (db, d)
        ∧ d = omap xml_discard_name [geneset_mouse; geneset_human].
Proof.
  eexists _, _. split; [vm_compute; reflexivity|].
  eapply (load_xml_msigdb_discarded (A:=float) [geneset_mouse; geneset_human]).
  vm_compute. reflexivity.
Defined.

Lemma load_xml_msigdb_signature_witness :
  ∃ db d gs,
    load_xml_msigdb (A:=float) [geneset_mouse; geneset_human] = Ok (db, d)
    ∧ db !! "C5_M12345" = Some gs
    ∧ ∃ sig members standard,
        sig ∈ [geneset_mouse; geneset_human] ∧ xml_accepts sig "C5_M12345"
        ∧ sig !! "MEMBERS_EZID" = Some members
        ∧ sig !! "STANDARD_NAME" = Some standard
        ∧ (∀ g, g ∈ genes gs ↔ g ∈ PyStr.split PyStr.comma members)
        ∧ (∀ g, g ∈ genes gs → dict_get g (gset gs) = Some s_one)
        ∧ bias gs = s_zero
        ∧ info gs = msigdb_url +:+ standard.
Proof.
  eexists _, _, _. split; [vm_compute; reflexivity|].
  split; [vm_compute; reflexivity|].
  eapply (load_xml_msigdb_signature (A:=float) [geneset_mouse; geneset_human]).
  - vm_compute. reflexivity.
  - vm_compute. reflexivity.
Defined.

Lemma load_xml_msigdb_accounts_witness :
  ∃ db d, load_xml_msigdb (A:=float) [geneset_mouse; geneset_human] = Ok (db, d)
    ∧ ((∃ name, xml_discard_name geneset_mouse = Some name ∧ name ∈ d)
       ∨ (∃ key, xml_accepts geneset_mouse key ∧ is_Some (db !! key))).
Proof.
  eexists _, _. split; [vm_compute; reflexivity|].
  apply (load_xml_msigdb_accounts (A:=float) [geneset_mouse; geneset_human]).
  - vm_compute. reflexivity.
  - apply elem_of_cons. by left.
Defined.

(** A line for the mouse between two lines that are discarded for an
    unknown symbol. *)
Lemma gmt_non_human_discarded_witness :
  ∃ db d, load_gmt_genesigdb (A:=float)
            ([line_X_first; line_S_empty] ++ [line_S_genes]) annotation_A
          = Ok (db, d)
    ∧ d = ["S2"; "S"]
    ∧ ∃ db1 d1 db2 d2,
        load_gmt_genesigdb (A:=float) [line_X_first; line_S_empty] annotation_A
        = Ok (db1, d1)
        ∧ load_gmt_genesigdb (A:=float) [line_S_genes] annotation_A = Ok (db2, d2)
        ∧ d = d1 ++ d2
        ∧ load_gmt_genesigdb (A:=float)
            ([line_X_first; line_S_empty] ++ [line_mouse]) annotation_A
          = Ok (db1, d1 ++ ["S3"])
        ∧ load_gmt_genesigdb (A:=float)
            ([line_X_first; line_S_empty] ++ line_mouse :: [line_S_genes])
            annotation_A
          = Ok (db, d1 ++ "S3" :: d2).
Proof.
  eexists _, _. split; [vm_compute; reflexivity|]. split; [reflexivity|].
  apply (gmt_non_human_discarded annotation_A [line_X_first; line_S_empty]
           line_mouse [line_S_genes] "S3" "Mouse" ["GENE_A" +:+ LF]).
  - reflexivity.
  - reflexivity.
  - vm_compute. reflexivity.
Defined.

Lemma load_gmt_genesigdb_accounts_witness :
  ∃ db d, load_gmt_genesigdb (A:=float) [line_S_empty; line_mouse] annotation_A
          = Ok (db, d)
    ∧ ∃ t0 t1 rest, PyStr.split PyStr.tab line_S_empty = t0 :: t1 :: rest
        ∧ (t0 ∈ d
           ∨ (gmt_accepts annotation_A line_S_empty ("GS_" +:+ t0)
              ∧ is_Some (db !! ("GS_" +:+ t0)))).
Proof.
  eexists _, _. split; [vm_compute; reflexivity|].
  apply (load_gmt_genesigdb_accounts (A:=float) [line_S_empty; line_mouse]
           annotation_A).
  - vm_compute. reflexivity.
  - apply elem_of_cons. by left.
Defined.

(** A line whose marker is a symbol of the table is accepted. *)
Lemma load_gmt_genesigdb_signature_witness :
  ∃ db d gs,
    load_gmt_genesigdb (A:=float) [line_X_last; line_mouse] annotation_Human
    = Ok (db, d)
    ∧ db !! "GS_SIG1" = Some gs
    ∧ ∃ line t0 t1 rest,
        line ∈ [line_X_last; line_mouse]
        ∧ PyStr.split PyStr.tab line = t0 :: t1 :: rest
        ∧ "GS_SIG1" = "GS_" +:+ t0
        ∧ (∀ g, g ∈ genes gs → ∃ s, id_from_symbol annotation_Human (PStr s) = Ok g)
        ∧ (∀ g, g ∈ genes gs → dict_get g (gset gs) = Some s_one)
        ∧ bias gs = s_zero
        ∧ info gs = genesigdb_url +:+ t0.
Proof.
  eexists _, _, _. split; [vm_compute; reflexivity|].
  split; [vm_compute; reflexivity|].
  eapply (load_gmt_genesigdb_signature (A:=float) [line_X_last; line_mouse]
            annotation_Human).
  - vm_compute. reflexivity.
  - vm_compute. reflexivity.
Defined.

(** The example line with an annotation that holds no table. *)
Lemma load_gmt_genesigdb_unread_annotation_witness :
  ∃ e, load_gmt_genesigdb (A:=float) [spec_line] (Annotation_init (VerInt 0))
       = Raise e
     ∧ (e = TypeError ∨ e = IndexError).
Proof.
  apply (load_gmt_genesigdb_unread_annotation (A:=float) [spec_line]
           (Annotation_init (VerInt 0)) spec_line "SIG1" "Human-derived" "GENE_A"
           ["GENE_B" +:+ LF]).
  - reflexivity.
  - apply elem_of_cons. by left.
  - reflexivity.
  - reflexivity.
Defined.

(** C3 at a file with a line without a tab, at a file of three lines
    that loads, and at a file with an element without [MEMBERS_EZID]. *)
Lemma loaders_raise_on_malformed_entry_witness :
  load_gmt_genesigdb (A:=float) [line_S_empty; line_short] annotation_A
  = Raise IndexError
  ∧ (∃ db, load_gmt_genesigdb (A:=float) [line_mouse; line_S_empty; line_X_first]
             annotation_A
           = Ok (db, omap (gmt_discard_id annotation_A)
                       [line_mouse; line_S_empty; line_X_first]))
  ∧ omap (gmt_discard_id annotation_A) [line_mouse; line_S_empty; line_X_first]
    = ["S3"; "S2"]
  ∧ ∃ n, load_xml_msigdb (A:=float) [geneset_human; geneset_no_members]
         = Raise (KeyError n).
Proof.
  destruct (loaders_raise_on_malformed_entry (A:=float)) as [Hgmt Hxml].
  split_and!.
  - apply (Hgmt (Annotation_init (VerInt 0)) [gene_row "100" "GENE_A"] "v1").
    apply Exists_cons. right. apply Exists_cons. left. vm_compute. lia.
  - apply (Hgmt (Annotation_init (VerInt 0)) [gene_row "100" "GENE_A"] "v1").
    repeat (constructor; [vm_compute; lia|]). constructor.
  - reflexivity.
  - apply Hxml. apply Exists_cons. right. apply Exists_cons. left.
    exists "MEMBERS_EZID". split; [|reflexivity].
    unfold xml_reads. rewrite decide_True by reflexivity.
    apply elem_of_cons. right. apply elem_of_cons. by left.
Defined.
